(** * Coverage reporter and project exporter

    A shallow embedding of two scripts of the repository:

    - [.gemini/parse_coverage.py]: [parse_jacoco_report] walks a JaCoCo XML
      report and prints every source file of the [com/android/designcompose]
      packages whose line coverage is below 50 percent;
    - [reference-apps/standalone-projects/export-standalone-project.py]:
      copies a project tree twice through [shutil.copytree] with the filter
      [shutil.ignore_patterns('.*', 'build', 'local.properties', 'bin')].

    Python values are modelled as the scripts use them: attribute dictionaries
    as finite maps, [int] as [Z], [float] as IEEE binary64 through the
    executable specification [SpecFloat] of the standard library, standard
    output as the list of the lines printed so far, and an uncaught exception
    as the [inl] branch of the result. Text is ASCII, file names are matched
    as on POSIX, and the interpreter's limit on the digits of an integer
    literal is a parameter. *)

From Stdlib Require Import ZArith Lia List String Ascii Bool.
From Stdlib Require Import DecimalString DecimalPos DecimalN SpecFloat.
From stdpp Require Import base option gmap strings list.

#[local] Set Warnings "-register-all".
Local Open Scope string_scope.

(** ** Python runtime: exceptions, standard output *)

Inductive exn :=
  | FileNotFoundError
  | ParseError
  | AttributeError
  | TypeError
  | ValueError
  | OverflowError
  | ZeroDivisionError
  | NotADirectoryError
  | FileExistsError.

(** A computation prints lines and then either raises or returns. The lines
    printed before an exception stay printed. *)
Definition py (A : Type) : Type := (list string * (exn + A))%type.

#[global] Instance py_ret : MRet py := λ A x, ([], inr x).

#[global] Instance py_bind : MBind py := λ A B f m,
  match m with
  | (out, inl e) => (out, inl e)
  | (out, inr x) => let '(out', r) := f x in ((out ++ out')%list, r)
  end.

Definition raise {A : Type} (e : exn) : py A := ([], inl e).

Definition print (line : string) : py unit := ([line], inr tt).

(** An expression that prints nothing: its value, or the exception it raises. *)
Definition eval {A : Type} (r : exn + A) : py A := ([], r).

Definition stdout {A : Type} (m : py A) : list string := fst m.

Definition raised {A : Type} (m : py A) : option exn :=
  match snd m with inl e => Some e | inr _ => None end.

(** [for x in l: body(x)]; a [continue] is a body that returns at once. *)
Fixpoint for_each {A : Type} (body : A → py unit) (l : list A) : py unit :=
  match l with
  | [] => mret tt
  | x :: l' => body x;; for_each body l'
  end.

(** ** xml.etree.ElementTree *)

(** An element: its tag, its attribute dictionary and its child elements in
    document order (text and tail are never read by the script). *)
Inductive element := Element {
  tag : string;
  attrib : gmap string string;
  children : list element
}.

(** [elem.get(key)]: the attribute value or [None]. *)
Definition get (key : string) (elem : element) : option string :=
  attrib elem !! key.

(** [elem.findall(t)] for a plain tag name [t]: the direct children with that
    tag, in document order. *)
Definition findall (t : string) (elem : element) : list element :=
  filter (λ c, tag c = t) (children elem).

(** [elem.find('t[@k="v"]')]: the first direct child with tag [t] whose
    attribute [k] is [v]. *)
Definition find_attr (t k v : string) (elem : element) : option element :=
  head (filter (λ c, tag c = t ∧ attrib c !! k = Some v) (children elem)).

(** What [ET.parse(xml_file)] meets: no file, a file that is not well-formed
    XML, or a document with its root element. *)
Inductive xml_source :=
  | NoSuchFile
  | NotWellFormed
  | Document (root : element).

Definition ET_parse (xml_file : xml_source) : py element :=
  match xml_file with
  | NoSuchFile => raise FileNotFoundError
  | NotWellFormed => raise ParseError
  | Document root => mret root
  end.

(** ** Python strings *)

(** [s.startswith(p)] *)
Definition startswith (s p : string) : bool := String.prefix p s.

(** [str(x)] for an optional string, as an f-string renders it. *)
Definition py_str (o : option string) : string :=
  match o with
  | None => "None"
  | Some s => s
  end.

(** The ASCII white space that [int] skips around a literal: tab, line feed,
    vertical tab, form feed, carriage return and space. *)
Definition is_space (c : ascii) : bool :=
  let n := N_of_ascii c in
  (((9 <=? n) && (n <=? 13)) || (n =? 32))%N.

Definition is_digit (c : ascii) : bool :=
  let n := N_of_ascii c in ((48 <=? n) && (n <=? 57))%N.

Definition digit_value (c : ascii) : N := (N_of_ascii c - 48)%N.

Definition digit_char (d : N) : ascii := ascii_of_N (48 + d).

(** The literal without the white space before it and after it. *)
Fixpoint lstrip (s : string) : string :=
  match s with
  | String c r => if is_space c then lstrip r else s
  | EmptyString => EmptyString
  end.

Fixpoint rstrip (s : string) : string :=
  match s with
  | EmptyString => EmptyString
  | String c r =>
      match rstrip r with
      | EmptyString => if is_space c then EmptyString else String c EmptyString
      | r' => String c r'
      end
  end.

Definition strip (s : string) : string := lstrip (rstrip s).

(** ** int(str) *)

(** The digits of a decimal literal after its first digit: digits, with single
    underscores between them. Returns the value and the number of digits. *)
Fixpoint int_digits (acc : N) (ndigits : nat) (prev_underscore : bool)
    (s : string) : option (N * nat) :=
  match s with
  | EmptyString => if prev_underscore then None else Some (acc, ndigits)
  | String c r =>
      if is_digit c then
        int_digits (10 * acc + digit_value c)%N (S ndigits) false r
      else if Ascii.eqb c "_" then
        if prev_underscore then None else int_digits acc ndigits true r
      else None
  end.

Definition int_literal (s : string) : option (N * nat) :=
  match s with
  | String c r => if is_digit c then int_digits (digit_value c) 1 false r else None
  | EmptyString => None
  end.

(** ** float: IEEE binary64 *)

Definition DBL_MANT_DIG : Z := 53.
Definition DBL_MAX_EXP : Z := 1024.

(** An integer as an exact, unnormalised operand [m * 2^0]. *)
Definition SF_of_Z (z : Z) : spec_float :=
  match z with
  | Z0 => S754_zero false
  | Zpos p => S754_finite false p 0
  | Zneg p => S754_finite true p 0
  end.

(** [a / b] on two [int]: the exact quotient rounded once to the nearest
    double, ties to even; [OverflowError] when that is out of range. *)
Definition int_truediv (a b : Z) : exn + spec_float :=
  if (b =? 0)%Z then inl ZeroDivisionError
  else
    match SFdiv DBL_MANT_DIG DBL_MAX_EXP (SF_of_Z a) (SF_of_Z b) with
    | S754_infinity _ => inl OverflowError
    | q => inr q
    end.

(** [float(n)] for an [int] literal operand of a float operation. *)
Definition float_of_int (n : Z) : spec_float :=
  binary_normalize DBL_MANT_DIG DBL_MAX_EXP n 0 false.

Definition float_mul (x y : spec_float) : spec_float :=
  SFmul DBL_MANT_DIG DBL_MAX_EXP x y.

Definition float_lt (x y : spec_float) : bool := SFltb x y.

Definition float_le (x y : spec_float) : bool := SFleb x y.

(** The expression [(covered_lines / total_lines) * 100]. *)
Definition coverage_of (covered_lines total_lines : Z) : exn + spec_float :=
  match int_truediv covered_lines total_lines with
  | inl e => inl e
  | inr q => inr (float_mul q (float_of_int 100))
  end.

(** ** format(x, '.2f') *)

(** [round_half_even num den]: the integer nearest to [num / den], ties to
    the even one. *)
Definition round_half_even (num den : N) : N :=
  let q := (num / den)%N in
  let r := (num mod den)%N in
  match (2 * r ?= den)%N with
  | Lt => q
  | Gt => (q + 1)%N
  | Eq => if N.even q then q else (q + 1)%N
  end.

(** The value [m * 2^e] in hundredths, rounded from its exact binary value. *)
Definition hundredths (m : positive) (e : Z) : N :=
  match e with
  | Zneg k => round_half_even (Npos m * 100) (2 ^ Npos k)
  | _ => (Npos m * 100 * 2 ^ Z.to_N e)%N
  end.

Definition decimal (n : N) : string := NilEmpty.string_of_uint (N.to_uint n).

Definition fixed2 (h : N) : string :=
  decimal (h / 100)
    ++ "."
    ++ String (digit_char (h mod 100 / 10)) (String (digit_char (h mod 10)) "").

Definition sign_prefix (s : bool) : string := if s then "-" else "".

Definition format_2f (x : spec_float) : string :=
  match x with
  | S754_nan => "nan"
  | S754_infinity s => sign_prefix s ++ "inf"
  | S754_zero s => sign_prefix s ++ "0.00"
  | S754_finite s m e => sign_prefix s ++ fixed2 (hundredths m e)
  end.

(** ** parse_coverage.py *)

Section Report.

(** [sys.get_int_max_str_digits()]: the interpreter's limit on the digits of
    a converted literal; [0] means no limit. *)
Variable max_str_digits : nat.

(** [int(x)] where [x] is an attribute value or [None]. *)
Definition py_int (x : option string) : exn + Z :=
  match x with
  | None => inl TypeError
  | Some s =>
      let s' := strip s in
      let '(negative, body) :=
        match s' with
        | String "-" r => (true, r)
        | String "+" r => (false, r)
        | _ => (false, s')
        end in
      match int_literal body with
      | None => inl ValueError
      | Some (n, ndigits) =>
          if ((640 <? ndigits) && (0 <? max_str_digits) && (max_str_digits <? ndigits))%nat
          then inl ValueError
          else inr (if negative then (- Z.of_N n)%Z else Z.of_N n)
      end
  end.

Definition int (x : option string) : py Z := eval (py_int x).

Definition prefix_name : string := "com/android/designcompose".

(** The text of the [print] call. *)
Definition report_line (package_name : string) (source_filename : option string)
    (coverage : spec_float) : string :=
  package_name ++ "/" ++ py_str source_filename ++ ": " ++ format_2f coverage ++ "%".

(** The body of the loop over the classes of a package. *)
Definition report_class (package_name : string) (class_elem : element) : py unit :=
  let class_name := get "name" class_elem in
  let source_filename := get "sourcefilename" class_elem in
  let line_counter := find_attr "counter" "type" "LINE" class_elem in
  match line_counter with
  | Some line_counter =>
      missed_lines ← int (get "missed" line_counter);
      covered_lines ← int (get "covered" line_counter);
      let total_lines := (missed_lines + covered_lines)%Z in
      if (0 <? total_lines)%Z then
        coverage ← eval (coverage_of covered_lines total_lines);
        if float_lt coverage (float_of_int 50) then
          print (report_line package_name source_filename coverage)
        else mret tt
      else mret tt
  | None => mret tt
  end.

(** The body of the loop over the packages of the report. *)
Definition report_package (package : element) : py unit :=
  match get "name" package with
  | None => raise AttributeError
  | Some package_name =>
      if negb (startswith package_name prefix_name) then mret tt
      else for_each (report_class package_name) (findall "class" package)
  end.

Definition parse_jacoco_report (xml_file : xml_source) : py unit :=
  root ← ET_parse xml_file;
  for_each report_package (findall "package" root).

(** *** Reports that follow the JaCoCo schema

    A counter carries [missed] and [covered] as non-negative integer
    literals, and a package carries a [name]. Only the counters that the
    script reads are checked: the first [LINE] counter of each class of a
    package under the prefix. *)

Definition counter_conforms (line_counter : element) : bool :=
  match py_int (get "missed" line_counter), py_int (get "covered" line_counter) with
  | inr missed, inr covered => ((0 <=? missed) && (0 <=? covered))%Z
  | _, _ => false
  end.

Definition class_conforms (class_elem : element) : bool :=
  match find_attr "counter" "type" "LINE" class_elem with
  | Some line_counter => counter_conforms line_counter
  | None => true
  end.



End Report.

(** ** export-standalone-project.py *)

(** [fnmatch.fnmatchcase(name, pat)] for a pattern made of literal characters,
    [?] and [*]; the patterns of the script have no bracket expression. On
    POSIX [fnmatch.filter] matches names as they are, without case folding. *)
Fixpoint fnmatch_pattern (pat : string) : string → bool :=
  match pat with
  | EmptyString => λ name, match name with EmptyString => true | _ => false end
  | String c pat' =>
      if Ascii.eqb c "*" then
        fix star (name : string) : bool :=
          fnmatch_pattern pat' name
          || match name with EmptyString => false | String _ r => star r end
      else if Ascii.eqb c "?" then
        λ name, match name with String _ r => fnmatch_pattern pat' r | _ => false end
      else
        λ name,
          match name with
          | String d r => Ascii.eqb c d && fnmatch_pattern pat' r
          | _ => false
          end
  end.

Definition fnmatchcase (name pat : string) : bool := fnmatch_pattern pat name.

(** [fnmatch.filter(names, pat)] *)
Definition fnmatch_filter (names : list string) (pat : string) : list string :=
  List.filter (λ name, fnmatchcase name pat) names.

(** [shutil.ignore_patterns] on its patterns: the callable that [copytree] gives
    the names of a directory and that returns the set of names to skip. *)
Definition ignore_patterns (patterns : list string) (names : list string) : gset string :=
  list_to_set (flat_map (fnmatch_filter names) patterns).

(** A directory tree as [copytree] with [symlinks=False] sees it: links are
    followed, so an entry is a file or a directory. *)
Inductive node :=
  | File (content : string)
  | Dir (entries : list (string * node)).

(** The recursive copy of [shutil.copytree]: in each directory the names that
    [ignore] returns are skipped, directories are copied recursively and
    files as they are. *)
Fixpoint copy_node (ignore : list string → gset string) (src : node) : node :=
  match src with
  | File content => File content
  | Dir entries =>
      let ignored_names := ignore (map fst entries) in
      Dir (flat_map
             (λ entry,
                if decide (fst entry ∈ ignored_names) then []
                else [(fst entry, copy_node ignore (snd entry))])
             entries)
  end.

(** [shutil.copytree(src, dst, symlinks=False, ignore=ignore)]: [src] must be
    a directory and [dst] must not exist; the result is the tree at [dst]. *)
Definition copytree (src : node) (dst_exists : bool)
    (ignore : list string → gset string) : exn + node :=
  match src with
  | File _ => inl NotADirectoryError
  | Dir _ => if dst_exists then inl FileExistsError else inr (copy_node ignore src)
  end.

Definition ignored : list string → gset string :=
  ignore_patterns [".*"; "build"; "local.properties"; "bin"].

(** The script: the project is copied to a fresh temporary directory and from
    there to [out_dir]. The result is the tree left at [out_dir]. *)
Definition export (project_dir : node) (out_dir_exists : bool) : exn + node :=
  match copytree project_dir false ignored with
  | inl e => inl e
  | inr initial_copy => copytree initial_copy out_dir_exists ignored
  end.

(** The entry called [name] of a directory listing. *)
Fixpoint dir_entry (name : string) (entries : list (string * node)) : option node :=
  match entries with
  | [] => None
  | (n, child) :: rest => if String.eqb n name then Some child else dir_entry name rest
  end.

(** The node at a relative path, given by its components. *)
Fixpoint lookup_path (path : list string) (root : node) : option node :=
  match path with
  | [] => Some root
  | name :: rest =>
      match root with
      | File _ => None
      | Dir entries =>
          match dir_entry name entries with
          | Some child => lookup_path rest child
          | None => None
          end
      end
  end.

(** The name is one that the exporter leaves out. *)
Definition excluded (name : string) : bool :=
  startswith name "."
  || String.eqb name "build"
  || String.eqb name "local.properties"
  || String.eqb name "bin".

(** ** Observations used by the statements *)

(** The string is made of decimal digits. *)
Fixpoint all_digits (s : string) : bool :=
  match s with
  | EmptyString => true
  | String c r => is_digit c && all_digits r
  end.


(** The pattern has no wildcard. *)
Fixpoint literal_pattern (pat : string) : bool :=
  match pat with
  | EmptyString => true
  | String c pat' => negb (Ascii.eqb c "*") && negb (Ascii.eqb c "?") && literal_pattern pat'
  end.

(** The scenario of the exporter: a project with a [.git] directory, a
    [build] directory, [local.properties], a [bin] directory and one source. *)
Definition sample_project : node :=
  Dir [(".git", Dir [("config", File "[core]")]);
       ("build", Dir [("out.apk", File "apk")]);
       ("local.properties", File "sdk.dir=/opt/sdk");
       ("bin", Dir []);
       ("src", Dir [("Main.kt", File "fun main() {}")])].

(** No component of the path is a name that the exporter leaves out. *)
Definition kept (path : list string) : bool := forallb (λ name, negb (excluded name)) path.

(** ** Sample documents

    Elements of the shape JaCoCo writes, for the scenarios. *)

Definition sample_counter (type missed covered : string) : element :=
  Element "counter" {[ "type" := type; "missed" := missed; "covered" := covered ]} [].

Definition sample_class (sourcefilename : string) (counters : list element) : element :=
  Element "class" {[ "name" := "Sample"; "sourcefilename" := sourcefilename ]} counters.

Definition sample_package (name : string) (classes : list element) : element :=
  Element "package" {[ "name" := name ]} classes.

Definition sample_report (packages : list element) : element :=
  Element "report" ∅ packages.



(** ** Doubles as scaled integers *)

(** A shift record carries a round bit and a sticky bit; it is inexact when
    one of them is set. *)
Definition inexact (mrs : shr_record) : bool := shr_r mrs || shr_s mrs.

(** The value [m * 2^e] of a double in units of [2^-2148], an integer for
    every double and for every exact product of two doubles. *)
Definition scaled (m : positive) (e : Z) : Z := (Z.pos m * 2 ^ (e + 2148))%Z.

(** A non-negative double that is at most the double [bm * 2^be]. *)
Definition at_most (bm : positive) (be : Z) (x : spec_float) : Prop :=
  x = S754_zero false
  ∨ ∃ m e, x = S754_finite false m e ∧ bounded 53 1024 m e = true
           ∧ (scaled m e ≤ scaled bm be)%Z.


(** * Proofs *)

(** ** Rounding to binary64

    [binary_round_aux] rounds a truncated mantissa with its location to the
    nearest double. The lemmas below bound its result by any double that
    bounds the rounded value; the bounds on the percentage follow from them. *)

Section Binary64.

Local Open Scope Z_scope.

(** *** Exponents and digits *)

Lemma fexp_eq e : fexp 53 1024 e = Z.max (e - 53) (-1074).
Proof. reflexivity. Qed.

Lemma fexp_mono a b : a ≤ b → fexp 53 1024 a ≤ fexp 53 1024 b.
Proof. rewrite !fexp_eq. lia. Qed.

Lemma digits2_pos_size p : digits2_pos p = Pos.size p.
Proof. induction p; simpl; congruence. Qed.

Lemma Zdigits2_log2 m : 0 < m → Zdigits2 m = Z.log2 m + 1.
Proof.
  destruct m as [|p|p]; try lia. intros _. simpl. rewrite digits2_pos_size.
  destruct p; simpl; lia.
Qed.

Lemma Zdigits2_bounds m : 0 < m → 2 ^ (Zdigits2 m - 1) ≤ m < 2 ^ Zdigits2 m.
Proof.
  intros Hm. rewrite Zdigits2_log2 by done.
  replace (Z.log2 m + 1 - 1) with (Z.log2 m) by lia.
  apply (Z.log2_spec m Hm).
Qed.

Lemma Zdigits2_unique m k : 0 < k → 2 ^ (k - 1) ≤ m < 2 ^ k → Zdigits2 m = k.
Proof.
  intros Hk Hm.
  assert (0 < m) by (pose proof (Z.pow_pos_nonneg 2 (k - 1)); lia).
  rewrite Zdigits2_log2 by done.
  rewrite (Z.log2_unique m (k - 1)); [lia | lia |].
  replace (Z.succ (k - 1)) with k by lia. done.
Qed.

Lemma Zdigits2_nonneg m : 0 ≤ Zdigits2 m.
Proof. destruct m; simpl; lia. Qed.

Lemma Zdigits2_pos m : 0 < m → 0 < Zdigits2 m.
Proof. destruct m; simpl; lia. Qed.

Lemma Zdigits2_lt_pow m k : 0 ≤ m < 2 ^ k → 0 ≤ k → Zdigits2 m ≤ k.
Proof.
  intros [Hm Hlt] Hk. destruct (Z.eq_dec m 0) as [->|Hne]; [done|].
  destruct (Z.le_gt_cases (Zdigits2 m) k) as [|Hgt]; [done|].
  pose proof (Zdigits2_bounds m ltac:(lia)) as [Hlo _].
  assert (2 ^ k ≤ 2 ^ (Zdigits2 m - 1)) by (apply Z.pow_le_mono_r; lia).
  lia.
Qed.

Lemma Zdigits2_ge_pow m k : 0 ≤ k → 2 ^ k ≤ m → k + 1 ≤ Zdigits2 m.
Proof.
  intros Hk Hm.
  assert (0 < m) by (pose proof (Z.pow_pos_nonneg 2 k); lia).
  pose proof (Zdigits2_bounds m ltac:(lia)) as [_ Hhi].
  destruct (Z.le_gt_cases (k + 1) (Zdigits2 m)) as [|Hgt]; [done|].
  assert (2 ^ Zdigits2 m ≤ 2 ^ k) by (apply Z.pow_le_mono_r; lia).
  lia.
Qed.

(** *** Shifting right with a round bit and a sticky bit *)

Lemma shr_1_m mrs : 0 ≤ shr_m mrs → shr_m (shr_1 mrs) = shr_m mrs / 2.
Proof.
  destruct mrs as [m r s]. simpl. intros Hm.
  destruct m as [|p|p]; [done| |lia].
  destruct p; simpl.
  - rewrite Pos2Z.inj_xI. apply (Z.div_unique _ 2 _ 1); lia.
  - rewrite Pos2Z.inj_xO. apply (Z.div_unique _ 2 _ 0); lia.
  - done.
Qed.

Lemma shr_1_exact mrs :
  0 ≤ shr_m mrs → shr_m mrs mod 2 = 0 → inexact mrs = false →
  inexact (shr_1 mrs) = false.
Proof.
  destruct mrs as [m r s]. unfold inexact. simpl. intros Hm Hmod Hrs.
  destruct m as [|p|p]; [by rewrite Hrs| |lia].
  destruct p; simpl.
  - rewrite Pos2Z.inj_xI in Hmod. rewrite Z.add_comm, Z.mul_comm, Z.mod_add in Hmod by lia. done.
  - by rewrite Hrs.
  - done.
Qed.

Lemma iter_pos_nat {A} (f : A → A) p x :
  SpecFloat.iter_pos f p x = Nat.iter (Pos.to_nat p) f x.
Proof.
  revert x. induction p as [p IH|p IH|]; intros x.
  - rewrite Pos2Nat.inj_xI. cbn [SpecFloat.iter_pos]. rewrite !IH.
    replace (S (2 * Pos.to_nat p)) with (Pos.to_nat p + S (Pos.to_nat p))%nat by lia.
    rewrite Nat.iter_add, Nat.iter_succ_r. done.
  - rewrite Pos2Nat.inj_xO. cbn [SpecFloat.iter_pos]. rewrite !IH.
    replace (2 * Pos.to_nat p)%nat with (Pos.to_nat p + Pos.to_nat p)%nat by lia.
    rewrite Nat.iter_add. done.
  - done.
Qed.

Lemma iter_shr_1 k mrs :
  0 ≤ shr_m mrs →
  0 ≤ shr_m (Nat.iter k shr_1 mrs)
  ∧ shr_m (Nat.iter k shr_1 mrs) = shr_m mrs / 2 ^ Z.of_nat k
  ∧ (shr_m mrs mod 2 ^ Z.of_nat k = 0 → inexact mrs = false →
     inexact (Nat.iter k shr_1 mrs) = false).
Proof.
  intros Hm. induction k as [|k (IH0 & IHm & IHx)].
  - simpl. rewrite Z.div_1_r. done.
  - rewrite Nat2Z.inj_succ, Z.pow_succ_r by lia. simpl.
    assert (0 < 2 ^ Z.of_nat k) by (apply Z.pow_pos_nonneg; lia).
    split_and!.
    + rewrite shr_1_m by done. apply Z.div_pos; lia.
    + rewrite shr_1_m, IHm by done. rewrite Z.div_div by lia. f_equal. lia.
    + intros Hmod Hx.
      apply Z.mod_divide in Hmod as [q Hq]; [|lia].
      assert (shr_m mrs = q * 2 * 2 ^ Z.of_nat k) as Hq' by lia.
      apply shr_1_exact; [done| |apply IHx; [|done]].
      * rewrite IHm, Hq', Z.div_mul by lia. apply Z.mod_mul. lia.
      * rewrite Hq'. apply Z.mod_mul. lia.
Qed.

Lemma shr_record_of_loc_m m l : shr_m (shr_record_of_loc m l) = m.
Proof. by destruct l as [|[]]. Qed.

Lemma rne_shr_record mrs :
  let m := shr_m mrs in
  let m' := round_nearest_even m (loc_of_shr_record mrs) in
  m ≤ m' ≤ m + 1 ∧ (inexact mrs = false → m' = m).
Proof.
  destruct mrs as [m [] []]; unfold inexact; simpl; try destruct (Z.even m); split; (lia || done).
Qed.

Lemma shr_fexp_spec mx ex lx :
  0 ≤ mx → ex ≤ fexp 53 1024 (Zdigits2 mx + ex) →
  ∃ mrs,
    shr_fexp 53 1024 mx ex lx = (mrs, fexp 53 1024 (Zdigits2 mx + ex))
    ∧ shr_m mrs = mx / 2 ^ (fexp 53 1024 (Zdigits2 mx + ex) - ex)
    ∧ (mx mod 2 ^ (fexp 53 1024 (Zdigits2 mx + ex) - ex) = 0 → lx = loc_Exact →
       inexact mrs = false).
Proof.
  intros Hmx Hex. unfold shr_fexp, shr.
  set (e1 := fexp 53 1024 (Zdigits2 mx + ex)) in *.
  destruct (e1 - ex) as [|p|p] eqn:Hn; [| |lia].
  - exists (shr_record_of_loc mx lx). split_and!.
    + f_equal. lia.
    + rewrite shr_record_of_loc_m. by rewrite Z.div_1_r.
    + by intros _ ->.
  - exists (SpecFloat.iter_pos shr_1 p (shr_record_of_loc mx lx)).
    pose proof (iter_shr_1 (Pos.to_nat p) (shr_record_of_loc mx lx)) as H.
    rewrite shr_record_of_loc_m, positive_nat_Z, <- iter_pos_nat in H.
    destruct (H Hmx) as (_ & Hm & Hx). split_and!.
    + f_equal. lia.
    + done.
    + intros Hmod ->. by apply Hx.
Qed.

Lemma binary_round_aux_shape sx mx ex lx :
  0 ≤ mx → ex ≤ fexp 53 1024 (Zdigits2 mx + ex) →
  let e1 := fexp 53 1024 (Zdigits2 mx + ex) in
  ∃ m2,
    mx / 2 ^ (e1 - ex) ≤ m2 ≤ mx / 2 ^ (e1 - ex) + 1
    ∧ (mx mod 2 ^ (e1 - ex) = 0 → lx = loc_Exact → m2 = mx / 2 ^ (e1 - ex))
    ∧ ((m2 = 0 ∧ binary_round_aux 53 1024 sx mx ex lx = S754_zero sx)
       ∨ ∃ m3 e3,
           canonical_mantissa 53 1024 m3 e3 = true
           ∧ e1 ≤ e3
           ∧ Z.pos m3 * 2 ^ (e3 - e1) = m2
           ∧ binary_round_aux 53 1024 sx mx ex lx
             = if e3 <=? 971 then S754_finite sx m3 e3 else S754_infinity sx).
Proof.
  intros Hmx Hex e1. unfold binary_round_aux.
  destruct (shr_fexp_spec mx ex lx Hmx Hex) as (mrs & -> & Hm1 & Hexact).
  fold e1 in Hm1, Hexact |- *.
  destruct (rne_shr_record mrs) as [Hrne Hrne'].
  set (m2 := round_nearest_even (shr_m mrs) (loc_of_shr_record mrs)) in *.
  rewrite Hm1 in Hrne, Hrne'. clearbody m2.
  exists m2. split; [done|]. split; [by intros; apply Hrne', Hexact|].
  assert (0 < 2 ^ (e1 - ex)) as Hpow by (apply Z.pow_pos_nonneg; lia).
  assert (0 ≤ mx / 2 ^ (e1 - ex)) as Hm1pos by (apply Z.div_pos; lia).
  assert (-1074 ≤ e1) as He1 by (unfold e1; rewrite fexp_eq; lia).
  (* the rounded mantissa fits the exponent, or is 2^53 *)
  assert (m2 = 2 ^ 53 ∧ fexp 53 1024 (Zdigits2 m2 + e1) = e1 + 1
          ∨ fexp 53 1024 (Zdigits2 m2 + e1) = e1) as [[Hm2 Hf]|Hf].
  { destruct (Z.eq_dec mx 0) as [->|Hne].
    { right. rewrite Z.div_0_l in Hrne by lia.
      assert (e1 = -1074) as He.
      { unfold e1 in *. rewrite fexp_eq in *. simpl Zdigits2 in *. lia. }
      assert (m2 = 0 ∨ m2 = 1) as [->| ->] by lia; rewrite He; done. }
    pose proof (Zdigits2_bounds mx ltac:(lia)) as [Hlo Hhi].
    pose proof (Zdigits2_pos mx ltac:(lia)) as Hd.
    set (d := Zdigits2 mx) in *.
    destruct (Z.le_gt_cases (-1074) (d + ex - 53)) as [Hnorm|Hsub].
    - (* normal range *)
      assert (e1 = d + ex - 53) as He by (unfold e1; rewrite fexp_eq; lia).
      assert (e1 - ex = d - 53) as Hn by lia. rewrite Hn in *.
      assert (2 ^ 52 ≤ mx / 2 ^ (d - 53) < 2 ^ 53) as Hm1b.
      { split.
        - apply Z.div_le_lower_bound; [lia|].
          rewrite <- Z.pow_add_r by lia. by replace (d - 53 + 52) with (d - 1) by lia.
        - apply Z.div_lt_upper_bound; [lia|].
          rewrite <- Z.pow_add_r by lia. by replace (d - 53 + 53) with d by lia. }
      destruct (Z.eq_dec m2 (2 ^ 53)) as [Heq|Hneq].
      + left. split; [done|]. rewrite Heq. rewrite fexp_eq.
        change (Zdigits2 (2 ^ 53)) with 54. lia.
      + right. rewrite (Zdigits2_unique m2 53); [rewrite fexp_eq; lia|lia|].
        change (53 - 1) with 52. lia.
    - (* subnormal range *)
      right.
      assert (e1 = -1074) as He by (unfold e1; rewrite fexp_eq; lia).
      assert (mx / 2 ^ (e1 - ex) < 2 ^ 52) as Hm1b.
      { apply Z.div_lt_upper_bound; [lia|]. rewrite <- Z.pow_add_r by lia.
        eapply Z.lt_le_trans; [exact Hhi|]. apply Z.pow_le_mono_r; lia. }
      assert (Zdigits2 m2 ≤ 53) by (apply Zdigits2_lt_pow; lia).
      pose proof (Zdigits2_nonneg m2). rewrite fexp_eq. lia. }
  - (* one more shift: 2^53 becomes 2^52 *)
    right. exists (2 ^ 52)%positive, (e1 + 1).
    unfold shr_fexp. rewrite Hf, Hm2.
    replace (e1 + 1 - e1) with 1 by lia. simpl.
    split_and!.
    + unfold canonical_mantissa. apply Z.eqb_eq.
      change (Z.pos (digits2_pos (2 ^ 52))) with 53. rewrite fexp_eq. lia.
    + lia.
    + replace (e1 + 1 - e1) with 1 by lia. done.
    + done.
  - unfold shr_fexp. rewrite Hf, Z.sub_diag. simpl.
    destruct m2 as [|m|m] eqn:Hm2; [by left| |lia].
    right. exists m, e1. split_and!.
    + unfold canonical_mantissa. simpl Zdigits2 in Hf. rewrite Hf. apply Z.eqb_refl.
    + lia.
    + rewrite Z.sub_diag. lia.
    + done.
Qed.

(** *** Comparing canonical doubles *)

Lemma canonical_inv m e :
  canonical_mantissa 53 1024 m e = true →
  1 ≤ Zdigits2 (Z.pos m) ≤ 53 ∧ -1074 ≤ e ∧ (-1074 < e → Zdigits2 (Z.pos m) = 53)
  ∧ fexp 53 1024 (Zdigits2 (Z.pos m) + e) = e.
Proof.
  unfold canonical_mantissa. intros H%Z.eqb_eq.
  change (Z.pos (digits2_pos m)) with (Zdigits2 (Z.pos m)) in H.
  pose proof (Zdigits2_pos (Z.pos m) ltac:(lia)).
  rewrite fexp_eq in *. lia.
Qed.

Lemma bounded_inv m e :
  bounded 53 1024 m e = true → canonical_mantissa 53 1024 m e = true ∧ e ≤ 971.
Proof. unfold bounded. intros [? ?%Z.leb_le]%andb_true_iff. done. Qed.


Lemma scaled_lt_of_exp m1 e1 m2 e2 :
  canonical_mantissa 53 1024 m1 e1 = true →
  canonical_mantissa 53 1024 m2 e2 = true →
  e1 < e2 → scaled m1 e1 < scaled m2 e2.
Proof.
  intros (Hd1 & He1 & _ & _)%canonical_inv (Hd2 & He2 & Hn2 & _)%canonical_inv Hlt.
  pose proof (Zdigits2_bounds (Z.pos m1) ltac:(lia)) as [_ Hhi].
  pose proof (Zdigits2_bounds (Z.pos m2) ltac:(lia)) as [Hlo _].
  rewrite Hn2 in Hlo by lia. change (53 - 1) with 52 in Hlo.
  assert (Z.pos m1 < 2 ^ 53).
  { eapply Z.lt_le_trans; [exact Hhi|]. apply Z.pow_le_mono_r; lia. }
  unfold scaled.
  assert (0 < 2 ^ (e1 + 2148)) as Hp by (apply Z.pow_pos_nonneg; lia).
  replace (e2 + 2148) with (e2 - e1 - 1 + 1 + (e1 + 2148)) by lia.
  rewrite (Z.pow_add_r 2 (e2 - e1 - 1 + 1)), (Z.pow_add_r 2 (e2 - e1 - 1) 1) by lia.
  assert (0 < 2 ^ (e2 - e1 - 1)) as Hq by (apply Z.pow_pos_nonneg; lia).
  change (2 ^ 1) with 2.
  set (P := 2 ^ (e1 + 2148)) in *. set (Q := 2 ^ (e2 - e1 - 1)) in *.
  assert (Z.pos m1 * P < 2 ^ 53 * P) by (apply Z.mul_lt_mono_pos_r; lia).
  assert (2 ^ 53 * P ≤ Z.pos m2 * 2 * P) by (apply Z.mul_le_mono_nonneg_r; lia).
  assert (Z.pos m2 * 2 * P * 1 ≤ Z.pos m2 * 2 * P * Q) by (apply Z.mul_le_mono_nonneg_l; lia).
  lia.
Qed.

Lemma SFcompare_canonical m1 e1 m2 e2 :
  canonical_mantissa 53 1024 m1 e1 = true →
  canonical_mantissa 53 1024 m2 e2 = true →
  SFcompare (S754_finite false m1 e1) (S754_finite false m2 e2)
  = Some (scaled m1 e1 ?= scaled m2 e2).
Proof.
  intros H1 H2. simpl. f_equal. destruct (Z.compare_spec e1 e2) as [->|Hlt|Hgt].
  - pose proof (canonical_inv _ _ H2) as (_ & He & _).
    unfold scaled. rewrite <- Zmult_compare_compat_r; [done|].
    apply Z.lt_gt, Z.pow_pos_nonneg; lia.
  - symmetry. apply Z.compare_lt_iff. by apply scaled_lt_of_exp.
  - symmetry. apply Z.compare_gt_iff. by apply scaled_lt_of_exp.
Qed.

Lemma SFleb_canonical m1 e1 m2 e2 :
  canonical_mantissa 53 1024 m1 e1 = true →
  canonical_mantissa 53 1024 m2 e2 = true →
  SFleb (S754_finite false m1 e1) (S754_finite false m2 e2) = true
  ↔ scaled m1 e1 ≤ scaled m2 e2.
Proof.
  intros H1 H2. unfold SFleb. rewrite SFcompare_canonical by done.
  destruct (Z.compare_spec (scaled m1 e1) (scaled m2 e2)); split; (lia || done).
Qed.

Lemma SFltb_canonical m1 e1 m2 e2 :
  canonical_mantissa 53 1024 m1 e1 = true →
  canonical_mantissa 53 1024 m2 e2 = true →
  SFltb (S754_finite false m1 e1) (S754_finite false m2 e2) = true
  ↔ scaled m1 e1 < scaled m2 e2.
Proof.
  intros H1 H2. unfold SFltb. rewrite SFcompare_canonical by done.
  destruct (Z.compare_spec (scaled m1 e1) (scaled m2 e2)); split; (lia || done).
Qed.

Lemma pow2_split a b : 0 ≤ a → 0 ≤ b → 2 ^ (a + b) = 2 ^ a * 2 ^ b.
Proof. intros. by apply Z.pow_add_r. Qed.

Lemma round_ub sx N D ex lx bm be :
  0 ≤ N → 0 < D → (N mod D = 0 → lx = loc_Exact) →
  -2148 ≤ ex → ex ≤ fexp 53 1024 (Zdigits2 (N / D) + ex) →
  bounded 53 1024 bm be = true →
  N * 2 ^ (ex + 2148) ≤ D * scaled bm be →
  binary_round_aux 53 1024 sx (N / D) ex lx = S754_zero sx
  ∨ ∃ m e,
      binary_round_aux 53 1024 sx (N / D) ex lx = S754_finite sx m e
      ∧ bounded 53 1024 m e = true
      ∧ scaled m e ≤ scaled bm be.
Proof.
  intros HN HD Hlx Hex Hpre [Hcb Hbe]%bounded_inv Hle.
  assert (0 ≤ N / D) as Hmx by (apply Z.div_pos; lia).
  destruct (binary_round_aux_shape sx (N / D) ex lx Hmx Hpre)
    as (m2 & Hb & Hx & Hcase).
  set (mx := N / D) in *. set (e1 := fexp 53 1024 (Zdigits2 mx + ex)) in *.
  destruct (canonical_inv _ _ Hcb) as (Hdb & Hbe' & _ & Hfb).
  set (P := 2 ^ (ex + 2148)) in *.
  assert (0 < P) as HP by (apply Z.pow_pos_nonneg; lia).
  assert (0 < 2 ^ (e1 - ex)) as HQ by (apply Z.pow_pos_nonneg; lia).
  assert (mx * D ≤ N) as HmxD by (rewrite Z.mul_comm; apply Z.mul_div_le; lia).
  assert (e1 ≤ be) as He1be.
  { destruct (Z.eq_dec mx 0) as [Hz|Hnz].
    { unfold e1 in *. rewrite Hz in *. simpl Zdigits2 in *. rewrite fexp_eq in *. lia. }
    pose proof (Zdigits2_bounds mx ltac:(lia)) as [Hlo _].
    pose proof (Zdigits2_pos mx ltac:(lia)) as Hd.
    pose proof (Zdigits2_bounds (Z.pos bm) ltac:(lia)) as [_ Hhi].
    assert (mx * P ≤ scaled bm be) as Hmxle.
    { apply (Z.mul_le_mono_pos_l _ _ D); [lia|].
      etransitivity; [|exact Hle].
      replace (D * (mx * P)) with (mx * D * P) by lia.
      apply Z.mul_le_mono_nonneg_r; lia. }
    assert (2 ^ (Zdigits2 mx - 1 + (ex + 2148))
            < 2 ^ (Zdigits2 (Z.pos bm) + (be + 2148))) as Hpow.
    { rewrite (pow2_split (Zdigits2 mx - 1)), (pow2_split (Zdigits2 (Z.pos bm))) by lia.
      fold P.
      eapply Z.le_lt_trans; [apply Z.mul_le_mono_nonneg_r; [lia|exact Hlo]|].
      eapply Z.le_lt_trans; [exact Hmxle|]. unfold scaled.
      apply Zmult_lt_compat_r; [apply Z.pow_pos_nonneg; lia|lia]. }
    apply Z.pow_lt_mono_r_iff in Hpow; [|lia|lia].
    rewrite <- Hfb. apply fexp_mono. lia. }
  set (K := Z.pos bm * 2 ^ (be - e1)).
  assert (scaled bm be = K * 2 ^ (e1 - ex) * P) as HB.
  { unfold scaled, K, P. rewrite <- !Z.mul_assoc, <- !pow2_split by lia.
    do 2 f_equal. lia. }
  set (Q := 2 ^ (e1 - ex)) in *.
  assert (N ≤ K * (D * Q)) as HNK.
  { apply (Z.mul_le_mono_pos_r _ _ P); [lia|]. rewrite HB in Hle. lia. }
  assert (mx / Q = N / (D * Q)) as Hm1 by (unfold mx; apply Z.div_div; lia).
  assert (m2 ≤ K) as Hm2K.
  { assert (mx / Q ≤ K) as Hle1.
    { rewrite Hm1. apply Z.div_le_upper_bound; [lia|]. lia. }
    destruct (Z.eq_dec (mx / Q) K) as [Heq|Hne]; [|lia].
    assert (D * Q * (N / (D * Q)) ≤ N) by (apply Z.mul_div_le; lia).
    assert (N = K * Q * D) as HNeq by (rewrite <- Hm1, Heq in *; lia).
    rewrite Hx; [done| |].
    - unfold mx. rewrite HNeq, Z.div_mul by lia. apply Z.mod_mul. lia.
    - apply Hlx. rewrite HNeq. apply Z.mod_mul. lia. }
  destruct Hcase as [[_ Hz]|(m3 & e3 & Hc3 & He3 & Hv3 & Hr)]; [by left|right].
  assert (scaled m3 e3 ≤ scaled bm be) as Hle3.
  { rewrite HB. unfold scaled.
    replace (e3 + 2148) with (e3 - e1 + ((e1 - ex) + (ex + 2148))) by lia.
    rewrite !pow2_split by lia. fold P Q.
    rewrite !Z.mul_assoc, Hv3. apply Z.mul_le_mono_nonneg_r; [lia|].
    apply Z.mul_le_mono_nonneg_r; lia. }
  assert (e3 ≤ be) as He3be.
  { destruct (Z.le_gt_cases e3 be) as [|Hgt]; [done|].
    pose proof (scaled_lt_of_exp _ _ _ _ Hcb Hc3 ltac:(lia)). lia. }
  exists m3, e3. rewrite Hr.
  assert (Z.leb e3 971 = true) as Hleb by (apply Z.leb_le; lia).
  rewrite Hleb. split_and!; [done| |done].
  unfold bounded. rewrite Hc3. exact Hleb.
Qed.


Lemma new_location_exact t : new_location t 0 = loc_Exact.
Proof. unfold new_location. by destruct (Z.even t). Qed.

Lemma SFdiv_core_spec c t :
  0 < c → 0 < t →
  ∃ s l,
    0 ≤ s ≤ 1074
    ∧ SFdiv_core_binary 53 1024 c 0 t 0 = (c * 2 ^ s / t, - s, l)
    ∧ ((c * 2 ^ s) mod t = 0 → l = loc_Exact)
    ∧ - s ≤ fexp 53 1024 (Zdigits2 (c * 2 ^ s / t) + - s).
Proof.
  intros Hc Ht. unfold SFdiv_core_binary.
  rewrite !Z.add_0_r, !Z.sub_0_r. change (0 - ?x) with (- x).
  set (e' := Z.min (fexp 53 1024 (Zdigits2 c - Zdigits2 t)) 0).
  assert (-1074 ≤ e' ≤ 0) as He' by (unfold e'; rewrite fexp_eq; lia).
  assert ((match - e' with
           | 0 => c
           | Z.pos _ => Z.shiftl c (- e')
           | Z.neg _ => 0
           end) = c * 2 ^ (- e')) as ->.
  { destruct (- e') as [|p|p] eqn:Hs; [lia| |lia].
    rewrite Z.shiftl_mul_pow2 by lia. done. }
  exists (- e').
  destruct (Z.div_eucl (c * 2 ^ (- e')) t) as [q r] eqn:Hdiv.
  assert (q = c * 2 ^ (- e') / t) as -> by (unfold Z.div; by rewrite Hdiv).
  assert (r = (c * 2 ^ (- e')) mod t) as -> by (unfold Z.modulo; by rewrite Hdiv).
  exists (new_location t ((c * 2 ^ (- e')) mod t)). rewrite Z.opp_involutive.
  split_and!; [lia|lia|done|by intros ->; apply new_location_exact|].
  (* the quotient has enough digits for its exponent *)
  pose proof (Zdigits2_bounds c Hc) as [Hclo _].
  pose proof (Zdigits2_bounds t Ht) as [_ Hthi].
  pose proof (Zdigits2_pos c Hc) as Hd1. pose proof (Zdigits2_pos t Ht) as Hd2.
  set (d1 := Zdigits2 c) in *. set (d2 := Zdigits2 t) in *.
  set (q := c * 2 ^ (- e') / t).
  pose proof (Zdigits2_nonneg q) as Hdq.
  destruct (Z.le_gt_cases 0 (d1 - 1 + - e' - d2)) as [Hbig|Hsmall].
  - assert (2 ^ (d1 - 1 + - e' - d2) ≤ q) as Hq.
    { unfold q. apply Z.div_le_lower_bound; [lia|].
      assert (0 < 2 ^ (d1 - 1 + - e' - d2)) by (apply Z.pow_pos_nonneg; lia).
      assert (t * 2 ^ (d1 - 1 + - e' - d2) ≤ 2 ^ d2 * 2 ^ (d1 - 1 + - e' - d2))
        by (apply Z.mul_le_mono_nonneg_r; lia).
      rewrite <- pow2_split in * by lia.
      replace (d2 + (d1 - 1 + - e' - d2)) with (d1 - 1 + - e') in * by lia.
      rewrite pow2_split in * by lia.
      assert (2 ^ (d1 - 1) * 2 ^ (- e') ≤ c * 2 ^ (- e'))
        by (apply Z.mul_le_mono_nonneg_r; [apply Z.pow_nonneg|]; lia).
      lia. }
    apply Zdigits2_ge_pow in Hq; [|lia].
    etransitivity; [|apply (fexp_mono (d1 - d2)); lia].
    unfold e'. lia.
  - pose proof (fexp_eq (d1 - d2)). pose proof (fexp_eq (Zdigits2 q + e')).
    unfold e' in *. lia.
Qed.

Lemma SFdiv_ub c t bm be :
  bounded 53 1024 bm be = true →
  Z.pos c * 2 ^ 2148 ≤ Z.pos t * scaled bm be →
  let r := SFdiv 53 1024 (S754_finite false c 0) (S754_finite false t 0) in
  r = S754_zero false
  ∨ ∃ m e, r = S754_finite false m e ∧ bounded 53 1024 m e = true
           ∧ scaled m e ≤ scaled bm be.
Proof.
  intros Hb Hle. cbn [SFdiv].
  destruct (SFdiv_core_spec (Z.pos c) (Z.pos t)) as (s & l & Hs & -> & Hl & Hpre); [lia..|].
  apply round_ub; [lia|lia|done|lia|done|done|].
  rewrite <- Z.mul_assoc, <- pow2_split by lia.
  by replace (s + (- s + 2148)) with 2148 by lia.
Qed.


Lemma SFmul_pre m e m' e' :
  canonical_mantissa 53 1024 m e = true →
  canonical_mantissa 53 1024 m' e' = true →
  -2148 ≤ e + e'
  ∧ e + e' ≤ fexp 53 1024 (Zdigits2 (Z.pos (m * m') / 1) + (e + e')).
Proof.
  intros (Hd & He & Hn & _)%canonical_inv (Hd' & He' & Hn' & _)%canonical_inv.
  split; [lia|]. rewrite Z.div_1_r.
  pose proof (Zdigits2_bounds (Z.pos m) ltac:(lia)) as [Hlo _].
  pose proof (Zdigits2_bounds (Z.pos m') ltac:(lia)) as [Hlo' _].
  set (d := Zdigits2 (Z.pos m)) in *. set (d' := Zdigits2 (Z.pos m')) in *.
  assert (2 ^ (d - 1 + (d' - 1)) ≤ Z.pos (m * m')) as Hprod.
  { rewrite pow2_split, Pos2Z.inj_mul by lia.
    apply Z.mul_le_mono_nonneg; try done; apply Z.pow_nonneg; lia. }
  apply Zdigits2_ge_pow in Hprod; [|lia].
  rewrite fexp_eq. lia.
Qed.

Lemma SFmul_ub m e m' e' bm be :
  canonical_mantissa 53 1024 m e = true →
  canonical_mantissa 53 1024 m' e' = true →
  bounded 53 1024 bm be = true →
  Z.pos m * Z.pos m' * 2 ^ (e + e' + 2148) ≤ scaled bm be →
  let r := SFmul 53 1024 (S754_finite false m e) (S754_finite false m' e') in
  r = S754_zero false
  ∨ ∃ m e, r = S754_finite false m e ∧ bounded 53 1024 m e = true
           ∧ scaled m e ≤ scaled bm be.
Proof.
  intros Hc Hc' Hb Hle. cbn [SFmul xorb].
  destruct (SFmul_pre m e m' e' Hc Hc') as [Hex Hpre].
  rewrite <- (Z.div_1_r (Z.pos (m * m'))).
  apply round_ub; [lia|lia|done|done|done|done|].
  rewrite Pos2Z.inj_mul. lia.
Qed.


(** *** Bounds on the quotient and on the percentage *)

Lemma float_of_int_100 : float_of_int 100 = S754_finite false 7036874417766400 (-46).
Proof. reflexivity. Qed.

Lemma float_of_int_50 : float_of_int 50 = S754_finite false 7036874417766400 (-47).
Proof. reflexivity. Qed.

Lemma float_mul_eq x y : float_mul x y = SFmul 53 1024 x y.
Proof. reflexivity. Qed.

Lemma float_of_int_0 : float_of_int 0 = S754_zero false.
Proof. reflexivity. Qed.

Lemma int_truediv_pos c t :
  int_truediv (Z.pos c) (Z.pos t)
  = match SFdiv 53 1024 (S754_finite false c 0) (S754_finite false t 0) with
    | S754_infinity _ => inl OverflowError
    | q => inr q
    end.
Proof. reflexivity. Qed.

Lemma int_truediv_at_most c t bm be :
  0 < c → 0 < t →
  bounded 53 1024 bm be = true →
  c * 2 ^ 2148 ≤ t * scaled bm be →
  ∃ q, int_truediv c t = inr q ∧ at_most bm be q.
Proof.
  intros Hc Ht Hb Hle. destruct c as [|c|c]; try lia. destruct t as [|t|t]; try lia.
  rewrite int_truediv_pos.
  destruct (SFdiv_ub c t bm be Hb Hle) as [->|(m & e & -> & Hbm & Hme)].
  - eexists; split; [done|]. by left.
  - eexists; split; [done|]. right. by exists m, e.
Qed.



Lemma pow2_cancel_r a b k : 0 ≤ k → a * 2 ^ k ≤ b * 2 ^ k → a ≤ b.
Proof.
  intros Hk H. apply (Z.mul_le_mono_pos_r _ _ (2 ^ k)); [|done].
  apply Z.pow_pos_nonneg; lia.
Qed.

(** The exact product of a canonical double with [100.0], times [2^46], is
    [100.0]'s mantissa times the scaled double. *)
Lemma product_100_scaled m e :
  -1074 ≤ e →
  Z.pos m * 7036874417766400 * 2 ^ (e + -46 + 2148) * 2 ^ 46
  = 7036874417766400 * scaled m e.
Proof.
  intros He. unfold scaled. rewrite <- Z.mul_assoc, <- pow2_split by lia.
  replace (e + -46 + 2148 + 46) with (e + 2148) by lia. lia.
Qed.

Lemma canonical_100 : canonical_mantissa 53 1024 7036874417766400 (-46) = true.
Proof. reflexivity. Qed.

Lemma float_mul_100_at_most q bm be hm he :
  at_most bm be q →
  canonical_mantissa 53 1024 bm be = true →
  bounded 53 1024 hm he = true →
  7036874417766400 * scaled bm be ≤ scaled hm he * 2 ^ 46 →
  at_most hm he (float_mul q (float_of_int 100)).
Proof.
  intros [->|(m & e & -> & [Hc _]%bounded_inv & Hle)] Hcb Hh Hprod; [by left|].
  rewrite float_of_int_100, float_mul_eq.
  apply SFmul_ub; [done|apply canonical_100|done|].
  apply (pow2_cancel_r _ _ 46); [lia|].
  destruct (canonical_inv _ _ Hc) as (_ & He & _).
  rewrite product_100_scaled by done.
  etransitivity; [|exact Hprod]. apply Z.mul_le_mono_nonneg_l; lia.
Qed.




Lemma float_le_100_at_most x :
  at_most 7036874417766400 (-46) x →
  float_le (float_of_int 0) x = true ∧ float_le x (float_of_int 100) = true.
Proof.
  intros [->|(m & e & -> & [Hc _]%bounded_inv & Hle)]; [done|].
  split; [done|]. rewrite float_of_int_100. unfold float_le.
  by rewrite SFleb_canonical.
Qed.


(** *** The coverage percentage of non-negative counters *)

Lemma coverage_of_zero t : 0 < t → coverage_of 0 t = inr (S754_zero false).
Proof. intros Ht. by destruct t. Qed.

Lemma coverage_of_pos c t q :
  int_truediv c t = inr q → coverage_of c t = inr (float_mul q (float_of_int 100)).
Proof. unfold coverage_of. by intros ->. Qed.

Lemma coverage_of_range c t :
  0 ≤ c ≤ t → 0 < t →
  ∃ cov, coverage_of c t = inr cov ∧ at_most 7036874417766400 (-46) cov.
Proof.
  intros [Hc Hct] Ht. destruct (Z.eq_dec c 0) as [->|Hne].
  { rewrite coverage_of_zero by done. eexists; split; [done|]. by left. }
  destruct (int_truediv_at_most c t 4503599627370496 (-52)) as (q & Hq & Hmost);
    [lia|lia|done| |].
  { unfold scaled. change (-52 + 2148) with (2096). replace (2 ^ 2148) with (4503599627370496 * 2 ^ 2096) by (by vm_compute).
    rewrite !Z.mul_assoc. apply Z.mul_le_mono_nonneg_r; [apply Z.pow_nonneg; lia|]. lia. }
  rewrite (coverage_of_pos _ _ _ Hq). eexists; split; [done|].
  eapply float_mul_100_at_most; [exact Hmost|done|done|by apply Z.leb_le].
Qed.


End Binary64.

(** ** The output monad *)

Lemma py_bind_eval_inr {A B} (x : A) (f : A → py B) : eval (inr x) ≫= f = f x.
Proof. unfold eval, mbind, py_bind. by destruct (f x). Qed.

Lemma py_bind_eval_inl {A B} (e : exn) (f : A → py B) :
  eval (inl e) ≫= f = ([], inl e).
Proof. reflexivity. Qed.

Lemma py_bind_ret_l {A B} (x : A) (f : A → py B) : mret x ≫= f = f x.
Proof. apply py_bind_eval_inr. Qed.

Lemma py_bind_assoc {A B C} (m : py A) (f : A → py B) (g : B → py C) :
  (m ≫= f) ≫= g = m ≫= (λ x, f x ≫= g).
Proof.
  unfold mbind, py_bind. destruct m as [out [e|x]]; [done|].
  destruct (f x) as [out' [e|y]]; [done|].
  destruct (g y) as [out'' r]. by rewrite app_assoc.
Qed.

Lemma stdout_bind {A B} (m : py A) (f : A → py B) :
  stdout (m ≫= f)
  = (stdout m ++ match snd m with inl _ => [] | inr x => stdout (f x) end)%list.
Proof.
  unfold stdout, mbind, py_bind. destruct m as [out [e|x]]; simpl.
  - by rewrite app_nil_r.
  - by destruct (f x).
Qed.

Lemma raised_bind {A B} (m : py A) (f : A → py B) :
  raised (m ≫= f)
  = match snd m with inl e => Some e | inr x => raised (f x) end.
Proof.
  unfold raised, mbind, py_bind. destruct m as [out [e|x]]; simpl; [done|].
  by destruct (f x).
Qed.

Lemma for_each_app {A} (body : A → py unit) l1 l2 :
  for_each body (l1 ++ l2)%list = (for_each body l1;; for_each body l2).
Proof.
  induction l1 as [|x l1 IH]; cbn [for_each app].
  - by rewrite py_bind_ret_l.
  - by rewrite IH, py_bind_assoc.
Qed.

(** A loop raises only what one of its bodies raises. *)
Lemma for_each_raised {A} (body : A → py unit) l e :
  raised (for_each body l) = Some e → ∃ x, x ∈ l ∧ raised (body x) = Some e.
Proof.
  induction l as [|x l IH]; simpl; [done|].
  rewrite raised_bind. destruct (body x) as [out [e'|[]]] eqn:Hx; simpl.
  - intros [= ->]. exists x. split; [left|]. by rewrite Hx.
  - intros (y & Hy & He)%IH. exists y. split; [by right|done].
Qed.


(** The lines of a loop are those of its bodies in the order of the list, up
    to and including the first body that raises. *)
Lemma for_each_stdout {A} (body : A → py unit) l :
  ∃ k, stdout (for_each body l) = concat (map (λ x, stdout (body x)) (take k l))
       ∧ (raised (for_each body l) = None → (length l ≤ k)%nat).
Proof.
  induction l as [|x l (k & IH & IHk)]; simpl.
  - exists 0%nat. done.
  - rewrite stdout_bind, raised_bind. destruct (body x) as [out [e|[]]] eqn:Hx; simpl.
    + exists 1%nat. split; [|done]. destruct l; simpl; by rewrite Hx.
    + exists (S k). simpl. rewrite Hx, IH. split; [done|]. intros ?%IHk. lia.
Qed.

(** ** Rendering with two decimals *)

Lemma all_digits_string_of_uint d : all_digits (NilEmpty.string_of_uint d) = true.
Proof. induction d; simpl; done. Qed.

Lemma decimal_digits n : decimal n ≠ "" ∧ all_digits (decimal n) = true.
Proof.
  split; [|apply all_digits_string_of_uint].
  unfold decimal. destruct n as [|p]; [done|]. simpl.
  pose proof (Unsigned.to_uint_nonnil p). by destruct (Pos.to_uint p).
Qed.





(** ** parse_jacoco_report *)

Section ReportProofs.

Variable max_str_digits : nat.

Lemma py_int_error x e :
  py_int max_str_digits x = inl e → e = TypeError ∨ e = ValueError.
Proof.
  unfold py_int. destruct x as [s|]; [|intros [= <-]; by left].
  destruct (match strip s with
            | String "-" r => (true, r)
            | String "+" r => (false, r)
            | _ => (false, strip s)
            end) as [negative body].
  destruct (int_literal body) as [[n k]|]; [|intros [= <-]; by right].
  destruct (_ && _); [intros [= <-]; by right|done].
Qed.

Lemma int_truediv_error c t e :
  int_truediv c t = inl e → t = 0%Z ∧ e = ZeroDivisionError ∨ e = OverflowError.
Proof.
  unfold int_truediv. destruct (Z.eqb_spec t 0) as [->|_]; [intros [= <-]; by left|].
  destruct (SFdiv _ _ _ _); intros [= <-]; by right.
Qed.

Lemma coverage_of_error c t e :
  coverage_of c t = inl e → t = 0%Z ∧ e = ZeroDivisionError ∨ e = OverflowError.
Proof.
  unfold coverage_of. destruct (int_truediv c t) as [e'|q] eqn:Hq; [|done].
  intros [= <-]. by apply int_truediv_error in Hq.
Qed.

(** What the loop body does with a class that has a [LINE] counter whose
    attributes are integers. *)
Lemma report_class_counter package_name class_elem line_counter missed covered :
  find_attr "counter" "type" "LINE" class_elem = Some line_counter →
  py_int max_str_digits (get "missed" line_counter) = inr missed →
  py_int max_str_digits (get "covered" line_counter) = inr covered →
  report_class max_str_digits package_name class_elem
  = if (0 <? missed + covered)%Z then
      match coverage_of covered (missed + covered) with
      | inl e => ([], inl e)
      | inr coverage =>
          if float_lt coverage (float_of_int 50)
          then ([report_line package_name (get "sourcefilename" class_elem) coverage], inr tt)
          else ([], inr tt)
      end
    else ([], inr tt).
Proof.
  intros Hfind Hm Hc. unfold report_class, int. rewrite Hfind, Hm, Hc.
  rewrite !py_bind_eval_inr. destruct (0 <? missed + covered)%Z; [|done].
  destruct (coverage_of covered (missed + covered)) as [e|coverage]; [done|].
  rewrite py_bind_eval_inr. by destruct (float_lt coverage (float_of_int 50)).
Qed.

Lemma report_class_no_counter package_name class_elem :
  find_attr "counter" "type" "LINE" class_elem = None →
  report_class max_str_digits package_name class_elem = mret tt.
Proof. intros H. unfold report_class. by rewrite H. Qed.

Lemma report_class_raised package_name class_elem e :
  raised (report_class max_str_digits package_name class_elem) = Some e →
  e = TypeError ∨ e = ValueError ∨ e = OverflowError.
Proof.
  destruct (find_attr "counter" "type" "LINE" class_elem) as [lc|] eqn:Hfind;
    [|by rewrite report_class_no_counter].
  destruct (py_int max_str_digits (get "missed" lc)) as [e1|missed] eqn:Hm.
  { unfold report_class, int. rewrite Hfind, Hm. intros [= <-].
    apply py_int_error in Hm. tauto. }
  destruct (py_int max_str_digits (get "covered" lc)) as [e2|covered] eqn:Hc.
  { unfold report_class, int. rewrite Hfind, Hm, Hc, py_bind_eval_inr. intros [= <-].
    apply py_int_error in Hc. tauto. }
  rewrite (report_class_counter _ _ _ _ _ Hfind Hm Hc).
  destruct (Z.ltb_spec 0 (missed + covered)) as [Hpos|_]; [|done].
  destruct (coverage_of covered (missed + covered)) as [e'|coverage] eqn:Hcov.
  - intros [= <-]. apply coverage_of_error in Hcov as [[? _]|?]; [lia|tauto].
  - by destruct (float_lt _ _).
Qed.

Lemma report_package_under_prefix package package_name :
  get "name" package = Some package_name →
  startswith package_name prefix_name = true →
  report_package max_str_digits package
  = for_each (report_class max_str_digits package_name) (findall "class" package).
Proof. intros Hn Hp. unfold report_package. by rewrite Hn, Hp. Qed.

Lemma report_package_raised package e :
  raised (report_package max_str_digits package) = Some e →
  e = AttributeError ∨ e = TypeError ∨ e = ValueError ∨ e = OverflowError.
Proof.
  unfold report_package. destruct (get "name" package) as [pn|]; [|intros [= <-]; by left].
  destruct (negb _); [done|].
  intros (c & _ & He%report_class_raised)%for_each_raised. tauto.
Qed.

Lemma parse_jacoco_report_document root :
  parse_jacoco_report max_str_digits (Document root)
  = for_each (report_package max_str_digits) (findall "package" root).
Proof.
  exact (py_bind_ret_l root
           (λ r, for_each (report_package max_str_digits) (findall "package" r))).
Qed.

Lemma parse_jacoco_report_raised xml_file e :
  raised (parse_jacoco_report max_str_digits xml_file) = Some e →
  e = FileNotFoundError ∨ e = ParseError ∨ e = AttributeError
  ∨ e = TypeError ∨ e = ValueError ∨ e = OverflowError.
Proof.
  destruct xml_file as [| |root].
  - intros [= <-]. by left.
  - intros [= <-]. right. by left.
  - rewrite parse_jacoco_report_document.
    intros (p & _ & He%report_package_raised)%for_each_raised. tauto.
Qed.

Lemma class_conforms_counter class_elem line_counter :
  class_conforms max_str_digits class_elem = true →
  find_attr "counter" "type" "LINE" class_elem = Some line_counter →
  ∃ missed covered,
    py_int max_str_digits (get "missed" line_counter) = inr missed
    ∧ py_int max_str_digits (get "covered" line_counter) = inr covered
    ∧ (0 ≤ missed)%Z ∧ (0 ≤ covered)%Z.
Proof.
  unfold class_conforms, counter_conforms. intros H Hf. rewrite Hf in H.
  destruct (py_int _ (get "missed" _)) as [|missed]; [done|].
  destruct (py_int _ (get "covered" _)) as [|covered]; [done|].
  apply andb_true_iff in H as [?%Z.leb_le ?%Z.leb_le]. by exists missed, covered.
Qed.

Lemma find_attr_none t k v elem :
  (∀ c, c ∈ children elem → ¬ (tag c = t ∧ attrib c !! k = Some v)) →
  find_attr t k v elem = None.
Proof.
  intros H. unfold find_attr.
  destruct (filter _ (children elem)) as [|c l] eqn:Hf; [done|].
  assert (c ∈ filter (λ c, tag c = t ∧ attrib c !! k = Some v) (children elem)) as Hc
    by (rewrite Hf; left).
  apply list_elem_of_filter in Hc as [Hc Hin]. by destruct (H c Hin).
Qed.

Lemma for_each_skip {A} (body : A → py unit) before x after :
  body x = mret tt →
  for_each body (before ++ x :: after)%list = for_each body (before ++ after)%list.
Proof.
  intros Hx. rewrite !for_each_app. cbn [for_each]. by rewrite Hx, py_bind_ret_l.
Qed.



(** C2. A package whose name does not start with the prefix prints nothing,
    whatever its classes and their counters are: the run is the same as if
    the package were not in the report. *)
Theorem report_package_outside_prefix package package_name before after :
  get "name" package = Some package_name →
  startswith package_name prefix_name = false →
  report_package max_str_digits package = ([], inr tt)
  ∧ for_each (report_package max_str_digits) (before ++ package :: after)%list
    = for_each (report_package max_str_digits) (before ++ after)%list.
Proof.
  intros Hname Hprefix.
  assert (report_package max_str_digits package = mret tt) as Hskip
    by (unfold report_package; by rewrite Hname, Hprefix).
  split; [done|]. by apply for_each_skip.
Qed.

(** C3. A class whose LINE counter has [missed + covered = 0] prints nothing,
    and no run ever raises ZeroDivisionError: the division is only reached
    with a positive total. *)
Theorem zero_total_skipped package_name class_elem line_counter missed covered :
  find_attr "counter" "type" "LINE" class_elem = Some line_counter →
  py_int max_str_digits (get "missed" line_counter) = inr missed →
  py_int max_str_digits (get "covered" line_counter) = inr covered →
  (missed + covered = 0)%Z →
  report_class max_str_digits package_name class_elem = ([], inr tt)
  ∧ ∀ xml_file,
      raised (parse_jacoco_report max_str_digits xml_file) ≠ Some ZeroDivisionError.
Proof.
  intros Hfind Hm Hc Hzero. split.
  - rewrite (report_class_counter _ _ _ _ _ Hfind Hm Hc), Hzero. done.
  - intros xml_file H%parse_jacoco_report_raised.
    destruct H as [?|[?|[?|[?|[?|?]]]]]; done.
Qed.

(** C4. A class with no counter of type LINE is skipped: it prints nothing,
    raises nothing, and the loop goes on with the remaining classes as if the
    class were not there. *)
Theorem class_without_line_counter_skipped package_name class_elem before after :
  (∀ c, c ∈ children class_elem →
        ¬ (tag c = "counter" ∧ attrib c !! "type" = Some "LINE")) →
  report_class max_str_digits package_name class_elem = ([], inr tt)
  ∧ for_each (report_class max_str_digits package_name) (before ++ class_elem :: after)%list
    = for_each (report_class max_str_digits package_name) (before ++ after)%list.
Proof.
  intros Hnone%find_attr_none.
  pose proof (report_class_no_counter package_name class_elem Hnone) as Hskip.
  split; [done|]. by apply for_each_skip.
Qed.


(** C6. The lines of a run are the lines of the packages in document order,
    and the lines of a package are the lines of its classes in document
    order: each output is the concatenation over a prefix of the elements,
    which is all of them when nothing is raised. *)
Theorem output_in_document_order root package package_name :
  package ∈ findall "package" root →
  get "name" package = Some package_name →
  startswith package_name prefix_name = true →
  let run := parse_jacoco_report max_str_digits (Document root) in
  let package_lines := λ p, stdout (report_package max_str_digits p) in
  let class_lines := λ c, stdout (report_class max_str_digits package_name c) in
  (∃ k, stdout run = concat (map package_lines (take k (findall "package" root))))
  ∧ (raised run = None →
     stdout run = concat (map package_lines (findall "package" root)))
  ∧ (∃ k, package_lines package
          = concat (map class_lines (take k (findall "class" package))))
  ∧ (raised (report_package max_str_digits package) = None →
     package_lines package = concat (map class_lines (findall "class" package)))
  ∧ findall "package" root `sublist_of` children root
  ∧ findall "class" package `sublist_of` children package.
Proof.
  intros _ Hname Hprefix run package_lines class_lines.
  unfold run, package_lines. rewrite parse_jacoco_report_document.
  rewrite (report_package_under_prefix _ _ Hname Hprefix).
  destruct (for_each_stdout (report_package max_str_digits) (findall "package" root))
    as (k & Hk & Hall).
  destruct (for_each_stdout (report_class max_str_digits package_name)
              (findall "class" package)) as (k' & Hk' & Hall').
  split_and!.
  - by exists k.
  - intros Hnone%Hall. rewrite Hk, take_ge by done. done.
  - by exists k'.
  - intros Hnone%Hall'. rewrite Hk', take_ge by done. done.
  - apply sublist_filter.
  - apply sublist_filter.
Qed.

(** C8. For non-negative counters with a positive total the percentage is
    defined and lies between 0 and 100. *)
Theorem coverage_between_0_and_100 missed covered :
  (0 ≤ missed)%Z → (0 ≤ covered)%Z → (0 < missed + covered)%Z →
  ∃ coverage,
    coverage_of covered (missed + covered) = inr coverage
    ∧ float_le (float_of_int 0) coverage = true
    ∧ float_le coverage (float_of_int 100) = true.
Proof.
  intros Hm Hc Hpos.
  destruct (coverage_of_range covered (missed + covered)) as (cov & Hcov & Hmost);
    [lia|lia|].
  exists cov. split; [done|]. by apply float_le_100_at_most.
Qed.

(** C10. A package element without a [name] attribute is not skipped: its
    loop body raises AttributeError at the prefix test, so the run ends with
    an uncaught exception (this one, unless an earlier package has already
    raised) and prints nothing beyond what the packages before it print. *)
Theorem package_without_name_aborts root before package after :
  findall "package" root = (before ++ package :: after)%list →
  get "name" package = None →
  let run := parse_jacoco_report max_str_digits (Document root) in
  report_package max_str_digits package = ([], inl AttributeError)
  ∧ stdout run = stdout (for_each (report_package max_str_digits) before)
  ∧ ∃ e, raised run = Some e
         ∧ (raised (for_each (report_package max_str_digits) before) = None →
            e = AttributeError).
Proof.
  intros Hpackages Hname run.
  assert (report_package max_str_digits package = ([], inl AttributeError)) as Hp
    by (unfold report_package; by rewrite Hname).
  split; [done|]. unfold run.
  rewrite parse_jacoco_report_document, Hpackages, for_each_app. cbn [for_each].
  rewrite stdout_bind, raised_bind, Hp.
  destruct (for_each (report_package max_str_digits) before) as [out [e|[]]]; simpl.
  - split; [by rewrite app_nil_r|]. by exists e.
  - split; [by rewrite app_nil_r|]. by exists AttributeError.
Qed.


End ReportProofs.

(** ** The exporter *)

Lemma fnmatch_star name : fnmatch_pattern "*" name = true.
Proof. induction name as [|c r IH]; [done|]. exact IH. Qed.

Lemma fnmatch_dot_star name : fnmatchcase name ".*" = startswith name ".".
Proof.
  unfold fnmatchcase, startswith. destruct name as [|d r]; [done|].
  change (fnmatch_pattern ".*" (String d r))
    with (Ascii.eqb "." d && fnmatch_pattern "*" r).
  rewrite fnmatch_star, andb_true_r.
  change (String.prefix "." (String d r))
    with (match ascii_dec "." d with
          | left _ => String.prefix "" r
          | right _ => false
          end).
  destruct (ascii_dec "." d) as [<-|Hne]; [by destruct r|].
  by apply Ascii.eqb_neq.
Qed.

Lemma fnmatch_literal pat name :
  literal_pattern pat = true → fnmatchcase name pat = String.eqb name pat.
Proof.
  unfold fnmatchcase. revert name. induction pat as [|c pat IH]; intros name Hlit.
  - by destruct name.
  - simpl in Hlit. apply andb_true_iff in Hlit as [[H1 H2]%andb_true_iff Hlit].
    apply negb_true_iff in H1, H2. simpl. rewrite H1, H2.
    destruct name as [|d r]; [done|]. simpl. rewrite (IH r Hlit).
    by rewrite Ascii.eqb_sym.
Qed.

Lemma ignored_spec names name :
  name ∈ ignored names ↔ name ∈ names ∧ excluded name = true.
Proof.
  unfold ignored, ignore_patterns. rewrite elem_of_list_to_set, list_elem_of_In.
  rewrite in_flat_map. unfold fnmatch_filter, excluded.
  rewrite <- fnmatch_dot_star.
  rewrite <- (fnmatch_literal "build"), <- (fnmatch_literal "local.properties"),
    <- (fnmatch_literal "bin") by done.
  split.
  - intros (pat & Hpat & [Hin Hmatch]%filter_In).
    apply list_elem_of_In in Hin. split; [done|].
    repeat (destruct Hpat as [<-|Hpat]; [rewrite Hmatch; by rewrite ?orb_true_r|]).
    done.
  - intros [Hin%list_elem_of_In H].
    repeat apply orb_true_iff in H as [H|H].
    + exists ".*". rewrite filter_In. split; [by left|done].
    + exists "build". rewrite filter_In. split; [right; by left|done].
    + exists "local.properties". rewrite filter_In. split; [do 2 right; by left|done].
    + exists "bin". rewrite filter_In. split; [do 3 right; by left|done].
Qed.

Lemma excluded_spec name :
  excluded name = true
  ↔ (∃ rest, name = String "." rest)
    ∨ name = "build" ∨ name = "local.properties" ∨ name = "bin".
Proof.
  unfold excluded, startswith. rewrite !orb_true_iff, !String.eqb_eq.
  assert (String.prefix "." name = true ↔ ∃ rest, name = String "." rest) as ->; [|tauto].
  destruct name as [|d r]; [split; [done|by intros [? ?]]|].
  change (String.prefix "." (String d r))
    with (match ascii_dec "." d with
          | left _ => String.prefix "" r
          | right _ => false
          end).
  destruct (ascii_dec "." d) as [<-|Hne].
  - split; [by exists r|by destruct r].
  - split; [done|]. intros [rest [= -> ->]]. done.
Qed.

(** Looking a name up in a copied directory. *)
Lemma dir_entry_copy (ignored_names : gset string) entries name :
  (∀ entry, entry ∈ entries → fst entry ∈ ignored_names ↔ excluded (fst entry) = true) →
  dir_entry name
    (flat_map
       (λ entry,
          if decide (fst entry ∈ ignored_names) then []
          else [(fst entry, copy_node ignored (snd entry))])
       entries)
  = if excluded name then None else copy_node ignored <$> dir_entry name entries.
Proof.
  intros Hign. induction entries as [|[n child] entries IH].
  - simpl. by destruct (excluded name).
  - cbn [flat_map dir_entry fst snd].
    assert (∀ entry, entry ∈ entries →
              fst entry ∈ ignored_names ↔ excluded (fst entry) = true) as Hrest
      by (intros entry Hin; apply Hign; by right).
    specialize (IH Hrest).
    pose proof (Hign (n, child) ltac:(left)) as Hn. simpl in Hn.
    destruct (decide (n ∈ ignored_names)) as [Hin|Hout].
    + simpl. rewrite IH. destruct (String.eqb_spec n name) as [->|Hne]; [|done].
      apply Hn in Hin. by rewrite Hin.
    + cbn [app dir_entry]. destruct (String.eqb_spec n name) as [->|Hne]; [|done].
      destruct (excluded name) eqn:Hex; [|done]. by destruct Hout; apply Hn.
Qed.

Lemma lookup_path_copy path src :
  lookup_path path (copy_node ignored src)
  = if kept path then copy_node ignored <$> lookup_path path src else None.
Proof.
  revert src. induction path as [|name rest IH]; intros src; [done|].
  cbn [kept forallb lookup_path]. fold (kept rest).
  destruct src as [content|entries].
  { simpl. by destruct (negb (excluded name) && kept rest). }
  cbn [copy_node]. rewrite dir_entry_copy.
  - destruct (excluded name); [done|]. simpl.
    destruct (dir_entry name entries) as [child|]; simpl.
    + apply IH.
    + by destruct (kept rest).
  - intros entry Hin. rewrite ignored_spec. split; [by intros [_ ?]|].
    intros ?. split; [|done]. apply list_elem_of_fmap. by exists entry.
Qed.

Lemma copy_node_file src content :
  copy_node ignored src = File content ↔ src = File content.
Proof. destruct src; simpl; split; congruence. Qed.

(** C9. The filter of the exporter skips exactly the names that begin with a
    dot and the names [build], [local.properties] and [bin]; what is left at
    the output is every file of the project whose path has no such
    component, with the content it had; the sample project yields only
    [src/Main.kt]. *)
Theorem export_excludes_exactly entries :
  (∀ names name, name ∈ ignored names ↔ name ∈ names ∧ excluded name = true)
  ∧ (∀ name, excluded name = true
             ↔ (∃ rest, name = String "." rest)
               ∨ name = "build" ∨ name = "local.properties" ∨ name = "bin")
  ∧ (∃ out, export (Dir entries) false = inr out
            ∧ (∀ path content,
                 lookup_path path out = Some (File content)
                 ↔ lookup_path path (Dir entries) = Some (File content)
                   ∧ kept path = true)
            ∧ (∀ path,
                 is_Some (lookup_path path out)
                 ↔ is_Some (lookup_path path (Dir entries)) ∧ kept path = true))
  ∧ export sample_project false
    = inr (Dir [("src", Dir [("Main.kt", File "fun main() {}")])]).
Proof.
  split_and!; [apply ignored_spec|apply excluded_spec| |done].
  exists (copy_node ignored (copy_node ignored (Dir entries))). split; [done|].
  split.
  - intros path content. rewrite !lookup_path_copy.
    destruct (kept path); [|by split; [|intros [_ ?]]].
    destruct (lookup_path path (Dir entries)) as [n|]; simpl; [|by split; [|intros [? _]]].
    split.
    + intros [= H]. by apply copy_node_file, copy_node_file in H as ->.
    + intros [[= ->] _]. done.
  - intros path. rewrite !lookup_path_copy.
    destruct (kept path); [|split; [by intros [? ?]|by intros [_ ?]]].
    destruct (lookup_path path (Dir entries)) as [n|]; simpl.
    + split; [by intros _|by intros _; eexists].
    + split; [by intros [? ?]|by intros [[? ?] _]].
Qed.

(** ** Scenarios *)

(** Scenario 1: 10 missed and 10 covered lines are 50.00 percent, not printed. *)
Example scenario_exactly_half :
  parse_jacoco_report 4300
    (Document (sample_report
       [sample_package "com/android/designcompose/x"
          [sample_class "File.kt" [sample_counter "LINE" "10" "10"]]]))
  = ([], inr tt).
Proof. vm_compute. reflexivity. Qed.

(** Scenario 2: 11 missed and 9 covered lines are printed as 45.00 percent. *)
Example scenario_below_half :
  parse_jacoco_report 4300
    (Document (sample_report
       [sample_package "com/android/designcompose/x"
          [sample_class "File.kt"
             [sample_counter "INSTRUCTION" "3" "40"; sample_counter "LINE" "11" "9"]]]))
  = (["com/android/designcompose/x/File.kt: 45.00%"], inr tt).
Proof. vm_compute. reflexivity. Qed.

(** Scenarios 3 to 5: a package outside the prefix, a class without a LINE
    counter and a class with no lines print nothing. *)
Example scenario_nothing_printed :
  parse_jacoco_report 4300
    (Document (sample_report
       [sample_package "com/other/x"
          [sample_class "Other.kt" [sample_counter "LINE" "7" "0"]];
        sample_package "com/android/designcompose/x"
          [sample_class "NoLines.kt" [sample_counter "BRANCH" "2" "0"];
           sample_class "Empty.kt" [sample_counter "LINE" "0" "0"]]]))
  = ([], inr tt).
Proof. vm_compute. reflexivity. Qed.

(** Above [2^53] lines the double quotient of a class just under one half
    rounds to one half, and the class is not printed. *)
Example scenario_rounds_to_half :
  parse_jacoco_report 4300
    (Document (sample_report
       [sample_package "com/android/designcompose"
          [sample_class "Huge.kt"
             [sample_counter "LINE" "9007199254740993" "9007199254740992"]]]))
  = ([], inr tt).
Proof. vm_compute. reflexivity. Qed.


Lemma report_package_outside_prefix_witness :
  let package :=
    sample_package "com/other/x" [sample_class "Other.kt" [sample_counter "LINE" "7" "0"]] in
  get "name" package = Some "com/other/x"
  ∧ startswith "com/other/x" prefix_name = false
  ∧ report_package 4300 package = ([], inr tt)
  ∧ for_each (report_package 4300) ([] ++ package :: [])%list
    = for_each (report_package 4300) ([] ++ [])%list.
Proof.
  intros package. split; [reflexivity|]. split; [reflexivity|].
  apply (report_package_outside_prefix 4300 package "com/other/x" [] []); reflexivity.
Defined.

Lemma zero_total_skipped_witness :
  let line_counter := sample_counter "LINE" "0" "0" in
  let class_elem := sample_class "Empty.kt" [line_counter] in
  (0 + 0 = 0)%Z
  ∧ report_class 4300 "com/android/designcompose/x" class_elem = ([], inr tt)
  ∧ ∀ xml_file, raised (parse_jacoco_report 4300 xml_file) ≠ Some ZeroDivisionError.
Proof.
  intros line_counter class_elem. split; [reflexivity|].
  apply (zero_total_skipped 4300 "com/android/designcompose/x" class_elem line_counter 0 0);
    reflexivity.
Defined.

Lemma class_without_line_counter_skipped_witness :
  let class_elem := sample_class "NoLines.kt" [sample_counter "BRANCH" "2" "0"] in
  report_class 4300 "com/android/designcompose/x" class_elem = ([], inr tt)
  ∧ for_each (report_class 4300 "com/android/designcompose/x") ([] ++ class_elem :: [])%list
    = for_each (report_class 4300 "com/android/designcompose/x") ([] ++ [])%list.
Proof.
  intros class_elem.
  apply (class_without_line_counter_skipped 4300 "com/android/designcompose/x"
           class_elem [] []).
  intros c Hc [_ Htype]. apply list_elem_of_singleton in Hc. subst c.
  vm_compute in Htype. discriminate Htype.
Defined.



Lemma output_in_document_order_witness :
  let package :=
    sample_package "com/android/designcompose/x"
      [sample_class "A.kt" [sample_counter "LINE" "3" "1"];
       sample_class "B.kt" [sample_counter "LINE" "8" "1"]] in
  let root := sample_report [package] in
  let run := parse_jacoco_report 4300 (Document root) in
  let package_lines := λ p, stdout (report_package 4300 p) in
  let class_lines := λ c, stdout (report_class 4300 "com/android/designcompose/x" c) in
  (∃ k, stdout run = concat (map package_lines (take k (findall "package" root))))
  ∧ (raised run = None →
     stdout run = concat (map package_lines (findall "package" root)))
  ∧ (∃ k, package_lines package
          = concat (map class_lines (take k (findall "class" package))))
  ∧ (raised (report_package 4300 package) = None →
     package_lines package = concat (map class_lines (findall "class" package)))
  ∧ findall "package" root `sublist_of` children root
  ∧ findall "class" package `sublist_of` children package.
Proof.
  intros package root.
  apply (output_in_document_order 4300 root package "com/android/designcompose/x").
  - vm_compute. left.
  - reflexivity.
  - reflexivity.
Defined.

Lemma coverage_between_0_and_100_witness :
  (0 ≤ 11)%Z ∧ (0 ≤ 9)%Z ∧ (0 < 11 + 9)%Z
  ∧ ∃ coverage,
      coverage_of 9 (11 + 9) = inr coverage
      ∧ float_le (float_of_int 0) coverage = true
      ∧ float_le coverage (float_of_int 100) = true.
Proof.
  split; [lia|]. split; [lia|]. split; [lia|].
  apply (coverage_between_0_and_100 11 9); lia.
Defined.

Lemma package_without_name_aborts_witness :
  let nameless := Element "package" ∅ [sample_class "File.kt" [sample_counter "LINE" "11" "9"]] in
  let root := sample_report [nameless] in
  let run := parse_jacoco_report 4300 (Document root) in
  get "name" nameless = None
  ∧ report_package 4300 nameless = ([], inl AttributeError)
  ∧ stdout run = stdout (for_each (report_package 4300) [])
  ∧ ∃ e, raised run = Some e
         ∧ (raised (for_each (report_package 4300) []) = None → e = AttributeError).
Proof.
  intros nameless root. split; [reflexivity|].
  apply (package_without_name_aborts 4300 root [] nameless []); reflexivity.
Defined.



(** * Further properties of the two scripts *)

Section ReportExtras.

Variable max_str_digits : nat.







(** X3. Only the [package] elements directly under the root are looked at: a
    report whose packages all sit inside other elements (the [group]
    elements of a multi-module report) prints nothing and completes. *)
Theorem nested_packages_not_reported root :
  (∀ child, child ∈ children root → tag child ≠ "package") →
  parse_jacoco_report max_str_digits (Document root) = ([], inr tt).
Proof.
  intros Hnone. rewrite parse_jacoco_report_document.
  assert (findall "package" root = []) as ->; [|done].
  unfold findall. destruct (filter _ (children root)) as [|c l] eqn:Hf; [done|].
  assert (c ∈ filter (λ c, tag c = "package") (children root)) as Hc by (rewrite Hf; left).
  apply list_elem_of_filter in Hc as [Htag Hin]. by destruct (Hnone c Hin).
Qed.

Lemma find_attr_first t k v tg attrs before x after :
  (∀ c, c ∈ before → ¬ (tag c = t ∧ attrib c !! k = Some v)) →
  tag x = t → attrib x !! k = Some v →
  find_attr t k v (Element tg attrs (before ++ x :: after)) = Some x.
Proof.
  intros Hbefore Htag Hattr. unfold find_attr. simpl.
  induction before as [|b before IH]; simpl.
  - rewrite filter_cons_True by done. done.
  - rewrite filter_cons_False by (apply Hbefore; left).
    apply IH. intros c Hc. apply Hbefore. by right.
Qed.

(** X4. Of the children of a class only the first counter of type [LINE] is
    read: counters of other types before it and whatever follows it (further
    [LINE] counters included) change nothing, and neither does the tag or
    any attribute of the class other than [sourcefilename]. *)
Theorem only_first_line_counter_read
    package_name tg attrs tg' attrs' before line_counter after :
  (∀ c, c ∈ before → ¬ (tag c = "counter" ∧ attrib c !! "type" = Some "LINE")) →
  tag line_counter = "counter" →
  attrib line_counter !! "type" = Some "LINE" →
  attrs !! "sourcefilename" = attrs' !! "sourcefilename" →
  report_class max_str_digits package_name
    (Element tg attrs (before ++ line_counter :: after))
  = report_class max_str_digits package_name (Element tg' attrs' [line_counter]).
Proof.
  intros Hbefore Htag Htype Hsf. unfold report_class.
  rewrite (find_attr_first _ _ _ _ _ before line_counter after) by done.
  rewrite (find_attr_first _ _ _ _ _ [] line_counter []); [|by intros ? ?%elem_of_nil|done|done].
  unfold get. simpl. by rewrite Hsf.
Qed.

(** X5. A class with lines but none covered is printed with [0.00]. *)
Theorem uncovered_class_prints_zero package_name class_elem line_counter missed :
  find_attr "counter" "type" "LINE" class_elem = Some line_counter →
  py_int max_str_digits (get "missed" line_counter) = inr missed →
  py_int max_str_digits (get "covered" line_counter) = inr 0%Z →
  (0 < missed)%Z →
  report_class max_str_digits package_name class_elem
  = ([package_name ++ "/" ++ py_str (get "sourcefilename" class_elem) ++ ": 0.00%"],
     inr tt).
Proof.
  intros Hfind Hm Hc Hpos.
  rewrite (report_class_counter _ _ _ _ _ _ Hfind Hm Hc).
  assert ((0 <? missed + 0)%Z = true) as -> by (apply Z.ltb_lt; lia).
  rewrite coverage_of_zero by lia. done.
Qed.

(** X12. A class that raises ends the run of its package there: the lines of
    the classes before it stay printed, and the classes after it are never
    read. *)
Theorem class_error_keeps_earlier_lines package package_name before class_elem after e :
  get "name" package = Some package_name →
  startswith package_name prefix_name = true →
  findall "class" package = (before ++ class_elem :: after)%list →
  raised (for_each (report_class max_str_digits package_name) before) = None →
  raised (report_class max_str_digits package_name class_elem) = Some e →
  report_package max_str_digits package
  = ((stdout (for_each (report_class max_str_digits package_name) before)
      ++ stdout (report_class max_str_digits package_name class_elem))%list,
     inl e).
Proof.
  intros Hname Hprefix Hclasses Hbefore Hclass.
  rewrite (report_package_under_prefix _ _ _ Hname Hprefix), Hclasses, for_each_app.
  cbn [for_each].
  destruct (for_each (report_class max_str_digits package_name) before)
    as [out [e0|[]]]; [done|].
  destruct (report_class max_str_digits package_name class_elem) as [out' [e1|[]]];
    [|done].
  injection Hclass as ->. done.
Qed.


Lemma round_half_even_le num den bound :
  (0 < den)%N → (num < bound * den)%N → (round_half_even num den ≤ bound)%N.
Proof.
  intros Hden Hlt. unfold round_half_even.
  assert (num / den < bound)%N as Hq.
  { apply N.Div0.div_lt_upper_bound. by rewrite N.mul_comm. }
  destruct (2 * (num mod den) ?= den)%N; [destruct (N.even _)| |]; lia.
Qed.

Lemma hundredths_below_50 m e :
  canonical_mantissa 53 1024 m e = true →
  (scaled m e < scaled 7036874417766400 (-47))%Z →
  (hundredths m e ≤ 5000)%N.
Proof.
  intros (_ & He & _)%canonical_inv Hlt. unfold scaled in Hlt.
  change (-47 + 2148)%Z with 2101%Z in Hlt.
  assert (Z.pos 7036874417766400 * 2 ^ 2101 = 50 * 2 ^ 2148)%Z as Hfifty
    by (by vm_compute).
  rewrite Hfifty in Hlt. clear Hfifty.
  destruct e as [|k|k]; unfold hundredths.
  - simpl Z.to_N. rewrite N.pow_0_r, N.mul_1_r.
    rewrite Z.add_0_l in Hlt.
    assert (Z.pos m < 50)%Z
      by (eapply Z.mul_lt_mono_pos_r; [|exact Hlt]; by apply Z.pow_pos_nonneg).
    lia.
  - rewrite (pow2_split (Z.pos k) 2148) in Hlt by lia.
    rewrite Z.mul_assoc in Hlt.
    assert (Z.pos m * 2 ^ Z.pos k < 50)%Z as Hm
      by (eapply Z.mul_lt_mono_pos_r; [|exact Hlt]; by apply Z.pow_pos_nonneg).
    assert (Z.of_N (N.pos m * 100 * 2 ^ Z.to_N (Z.pos k)) ≤ Z.of_N 5000)%Z; [|lia].
    rewrite !N2Z.inj_mul, N2Z.inj_pow. simpl Z.to_N. simpl Z.of_N. lia.
  - assert (2148 = Z.pos k + (Z.neg k + 2148))%Z as Hsplit by lia.
    rewrite Hsplit in Hlt at 2.
    rewrite (pow2_split (Z.pos k)) in Hlt by lia. rewrite Z.mul_assoc in Hlt.
    assert (Z.pos m < 50 * 2 ^ Z.pos k)%Z as Hm
      by (eapply Z.mul_lt_mono_pos_r; [|exact Hlt]; apply Z.pow_pos_nonneg; lia).
    apply round_half_even_le.
    + apply N.neq_0_lt_0, N.pow_nonzero. done.
    + assert (Z.of_N (N.pos m * 100) < Z.of_N (5000 * 2 ^ N.pos k))%Z; [|lia].
      rewrite !N2Z.inj_mul, N2Z.inj_pow. simpl Z.of_N. lia.
Qed.

(** X6. For non-negative counters the percentage printed is at most [50.00]:
    the line shows the number of hundredths [h <= 5000] with two decimals.
    (A percentage just under 50 is printed as [50.00].) *)
Theorem printed_percentage_at_most_50 package_name class_elem line :
  class_conforms max_str_digits class_elem = true →
  line ∈ stdout (report_class max_str_digits package_name class_elem) →
  ∃ h, (h ≤ 5000)%N
       ∧ line = package_name ++ "/" ++ py_str (get "sourcefilename" class_elem)
                ++ ": " ++ fixed2 h ++ "%".
Proof.
  intros Hok Hline.
  destruct (find_attr "counter" "type" "LINE" class_elem) as [lc|] eqn:Hfind;
    [|rewrite report_class_no_counter in Hline by done; by apply elem_of_nil in Hline].
  destruct (class_conforms_counter _ _ _ Hok Hfind) as (missed & covered & Hm & Hc & ? & ?).
  rewrite (report_class_counter _ _ _ _ _ _ Hfind Hm Hc) in Hline.
  destruct (Z.ltb_spec 0 (missed + covered)) as [Hpos|_];
    [|by apply elem_of_nil in Hline].
  destruct (coverage_of_range covered (missed + covered)) as (cov & Hcov & Hmost);
    [lia|lia|].
  rewrite Hcov in Hline.
  destruct (float_lt cov (float_of_int 50)) eqn:Hlt; [|by apply elem_of_nil in Hline].
  apply list_elem_of_singleton in Hline as ->. unfold report_line.
  destruct Hmost as [->|(m & e & -> & [Hcan _]%bounded_inv & _)].
  - by exists 0%N.
  - exists (hundredths m e). split; [|done].
    apply hundredths_below_50; [done|].
    rewrite float_of_int_50 in Hlt. unfold float_lt in Hlt.
    by apply SFltb_canonical in Hlt.
Qed.


(** *** Reading back a decimal numeral *)

Lemma int_digits_string_of_uint d acc k :
  int_digits acc k false (NilEmpty.string_of_uint d)
  = Some ((acc * 10 ^ Unsigned.usize d + Unsigned.of_lu (Decimal.rev d))%N,
          (k + String.length (NilEmpty.string_of_uint d))%nat).
Proof.
  revert acc k.
  induction d as [|d IH|d IH|d IH|d IH|d IH|d IH|d IH|d IH|d IH|d IH]; intros acc k;
    [simpl; f_equal; f_equal; [lia|lia]|..];
    (unfold Decimal.rev; cbn [Decimal.revapp];
     match goal with
     | |- context [Unsigned.of_lu (Decimal.revapp d ?x)] =>
         rewrite (Unsigned.of_lu_revapp d x)
     end;
     cbn [NilEmpty.string_of_uint int_digits Unsigned.usize String.length];
     change (is_digit _) with true; cbn iota; rewrite IH;
     rewrite N.pow_succ_r';
     f_equal; f_equal;
     [cbn [Unsigned.of_lu];
      match goal with
      | |- context [digit_value ?c] =>
          let v := eval vm_compute in (digit_value c) in
          change (digit_value c) with v
      end; lia
     |lia]).
Qed.

Lemma int_literal_decimal n :
  int_literal (decimal n) = Some (n, String.length (decimal n)).
Proof.
  unfold decimal.
  assert (N.to_uint n ≠ Decimal.Nil) as Hnil.
  { destruct n as [|p]; [done|]. apply Unsigned.to_uint_nonnil. }
  rewrite <- (DecimalN.Unsigned.of_to n) at 2.
  unfold N.of_uint. rewrite Unsigned.of_uint_alt.
  destruct (N.to_uint n) as [|d|d|d|d|d|d|d|d|d|d]; [done|..];
    (unfold Decimal.rev; cbn [Decimal.revapp];
     match goal with
     | |- context [Unsigned.of_lu (Decimal.revapp d ?x)] =>
         rewrite (Unsigned.of_lu_revapp d x)
     end;
     cbn [NilEmpty.string_of_uint int_literal String.length];
     change (is_digit _) with true; cbn iota;
     rewrite int_digits_string_of_uint;
     f_equal; f_equal; try lia;
     cbn [Unsigned.of_lu];
     match goal with
     | |- context [digit_value ?c] =>
         let v := eval vm_compute in (digit_value c) in
         change (digit_value c) with v
     end; lia).
Qed.

Lemma is_digit_not_space c : is_digit c = true → is_space c = false.
Proof.
  unfold is_digit, is_space. cbn zeta. intros [H1%N.leb_le H2%N.leb_le]%andb_true_iff.
  apply orb_false_iff. split.
  - apply andb_false_iff. right. apply N.leb_gt. lia.
  - apply N.eqb_neq. lia.
Qed.

Lemma rstrip_all_digits s : all_digits s = true → rstrip s = s.
Proof.
  induction s as [|c s IH]; [done|]. simpl. intros [Hc Hs]%andb_true_iff.
  rewrite (IH Hs). destruct s; [|done]. by rewrite is_digit_not_space.
Qed.

Lemma strip_all_digits s : all_digits s = true → strip s = s.
Proof.
  intros Hs. unfold strip. rewrite rstrip_all_digits by done.
  destruct s as [|c s]; [done|]. simpl in *.
  apply andb_true_iff in Hs as [Hc _]. by rewrite is_digit_not_space.
Qed.

(** X7. A count written as a plain decimal numeral, the way JaCoCo writes
    [missed] and [covered], is read back by [int] as the same number, as long
    as it is within the interpreter's limit on digits. *)
Theorem int_reads_back_decimal n :
  (String.length (decimal n) ≤ 640
   ∨ max_str_digits = 0
   ∨ String.length (decimal n) ≤ max_str_digits)%nat →
  py_int max_str_digits (Some (decimal n)) = inr (Z.of_N n).
Proof.
  intros Hlimit. destruct (decimal_digits n) as [Hne Hdigits].
  unfold py_int. rewrite strip_all_digits by done.
  assert ((match decimal n with
           | String "-" r => (true, r)
           | String "+" r => (false, r)
           | _ => (false, decimal n)
           end) = (false, decimal n)) as ->.
  { destruct (decimal n) as [|c r]; [done|]. simpl in Hdigits.
    apply andb_true_iff in Hdigits as [Hc _].
    destruct c as [[] [] [] [] [] [] [] []]; try done. }
  rewrite int_literal_decimal.
  destruct (_ && _) eqn:Hover; [|done].
  apply andb_true_iff in Hover as [[H1%Nat.ltb_lt H2%Nat.ltb_lt]%andb_true_iff H3%Nat.ltb_lt].
  lia.
Qed.


Lemma startswith_spec s p : startswith s p = true ↔ ∃ suffix, s = p ++ suffix.
Proof.
  unfold startswith. revert s. induction p as [|a p IH]; intros s.
  - split; [by exists s|by destruct s].
  - destruct s as [|b s].
    + split; [done|by intros [? ?]].
    + change (String.prefix (String a p) (String b s))
        with (match ascii_dec a b with
              | left _ => String.prefix p s
              | right _ => false
              end).
      destruct (ascii_dec a b) as [->|Hne].
      * rewrite IH. split; intros [suffix Hs]; exists suffix.
        -- by rewrite Hs.
        -- by injection Hs.
      * split; [done|]. intros [suffix [= ? _]]. done.
Qed.

(** X8. The prefix test is on the text of the name, not on path components:
    a package is reported exactly when its name is the prefix followed by
    anything, so [com/android/designcompose] itself and, say,
    [com/android/designcomposeextra] count as well. *)
Theorem prefix_test_is_textual package package_name :
  get "name" package = Some package_name →
  ((∃ suffix, package_name = prefix_name ++ suffix) →
   report_package max_str_digits package
   = for_each (report_class max_str_digits package_name) (findall "class" package))
  ∧ (¬ (∃ suffix, package_name = prefix_name ++ suffix) →
     report_package max_str_digits package = ([], inr tt)).
Proof.
  intros Hname. unfold report_package. rewrite Hname.
  destruct (startswith package_name prefix_name) eqn:Hp; simpl.
  - split; [done|]. intros Hnot. destruct Hnot. by apply startswith_spec.
  - split; [|done]. intros Hsuffix%startswith_spec. congruence.
Qed.

Lemma for_each_stdout_length {A} (body : A → py unit) (l : list A) :
  (∀ x, (length (stdout (body x)) ≤ 1)%nat) →
  (length (stdout (for_each body l)) ≤ length l)%nat.
Proof.
  intros Hbody. induction l as [|x l IH]; [done|].
  cbn [for_each]. rewrite stdout_bind, length_app.
  specialize (Hbody x). destruct (snd (body x)); simpl; lia.
Qed.

Lemma report_class_stdout_length package_name class_elem :
  (length (stdout (report_class max_str_digits package_name class_elem)) ≤ 1)%nat.
Proof.
  destruct (find_attr "counter" "type" "LINE" class_elem) as [lc|] eqn:Hfind;
    [|rewrite report_class_no_counter by done; simpl; lia].
  destruct (py_int max_str_digits (get "missed" lc)) as [e1|missed] eqn:Hm.
  { unfold report_class, int. rewrite Hfind, Hm. simpl. lia. }
  destruct (py_int max_str_digits (get "covered" lc)) as [e2|covered] eqn:Hc.
  { unfold report_class, int. rewrite Hfind, Hm, Hc, py_bind_eval_inr. simpl. lia. }
  rewrite (report_class_counter _ _ _ _ _ _ Hfind Hm Hc).
  destruct (0 <? missed + covered)%Z; [|simpl; lia].
  destruct (coverage_of covered (missed + covered)); [simpl; lia|].
  destruct (float_lt _ _); simpl; lia.
Qed.

(** X13. A run prints at most one line per class element: a package prints
    no more lines than it has classes, and a run no more than the classes of
    all its packages. *)
Theorem at_most_one_line_per_class root package :
  (length (stdout (report_package max_str_digits package))
   ≤ length (findall "class" package))%nat
  ∧ (length (stdout (parse_jacoco_report max_str_digits (Document root)))
     ≤ length (concat (map (findall "class") (findall "package" root))))%nat.
Proof.
  assert (∀ p, (length (stdout (report_package max_str_digits p))
                ≤ length (findall "class" p))%nat) as Hpackage.
  { intros p. unfold report_package. destruct (get "name" p) as [pn|]; [|simpl; lia].
    destruct (negb _); [simpl; lia|].
    apply for_each_stdout_length, report_class_stdout_length. }
  split; [apply Hpackage|].
  rewrite parse_jacoco_report_document.
  induction (findall "package" root) as [|p ps IH]; [done|].
  cbn [for_each map concat]. rewrite stdout_bind, !length_app.
  specialize (Hpackage p).
  destruct (snd (report_package max_str_digits p)); simpl; lia.
Qed.

End ReportExtras.

(** ** More on the exporter *)

Lemma node_induction (P : node → Prop) :
  (∀ content, P (File content)) →
  (∀ entries, Forall (λ entry, P (snd entry)) entries → P (Dir entries)) →
  ∀ n, P n.
Proof.
  intros HFile HDir. fix IH 1. intros [content|entries]; [apply HFile|].
  apply HDir. induction entries as [|[name child] entries IHentries]; constructor.
  - apply IH.
  - apply IHentries.
Qed.

Lemma ignored_excluded names name : name ∈ ignored names → excluded name = true.
Proof. by intros [_ ?]%ignored_spec. Qed.

Lemma ignored_entries (entries : list (string * node)) entry :
  entry ∈ entries →
  fst entry ∈ ignored (map fst entries) ↔ excluded (fst entry) = true.
Proof.
  intros Hin. rewrite ignored_spec. split; [by intros [_ ?]|].
  intros ?. split; [|done]. apply list_elem_of_fmap. by exists entry.
Qed.

(** After one copy a second copy removes nothing. *)
Lemma copy_entries_twice (ignored_names ignored_names' : gset string) entries :
  (∀ entry, entry ∈ entries → fst entry ∈ ignored_names ↔ excluded (fst entry) = true) →
  (∀ name, name ∈ ignored_names' → excluded name = true) →
  Forall (λ entry, copy_node ignored (copy_node ignored (snd entry))
                   = copy_node ignored (snd entry)) entries →
  flat_map
    (λ entry,
       if decide (fst entry ∈ ignored_names') then []
       else [(fst entry, copy_node ignored (snd entry))])
    (flat_map
       (λ entry,
          if decide (fst entry ∈ ignored_names) then []
          else [(fst entry, copy_node ignored (snd entry))])
       entries)
  = flat_map
      (λ entry,
         if decide (fst entry ∈ ignored_names) then []
         else [(fst entry, copy_node ignored (snd entry))])
      entries.
Proof.
  intros Hign Hign' Hall. induction entries as [|[name child] entries IH]; [done|].
  apply Forall_cons in Hall as [Hchild Hall].
  assert (∀ entry, entry ∈ entries →
            fst entry ∈ ignored_names ↔ excluded (fst entry) = true) as Hrest
    by (intros entry Hin; apply Hign; by right).
  specialize (IH Hrest Hall). cbn [flat_map fst snd].
  destruct (decide (name ∈ ignored_names)) as [Hin|Hout]; [done|].
  cbn [app flat_map fst snd].
  destruct (decide (name ∈ ignored_names')) as [Hin'|_].
  - destruct Hout. apply (Hign (name, child)); [left|by apply Hign'].
  - simpl in Hchild. by rewrite Hchild, IH.
Qed.

Lemma copy_node_twice src :
  copy_node ignored (copy_node ignored src) = copy_node ignored src.
Proof.
  induction src as [content|entries IH] using node_induction; [done|].
  cbn [copy_node]. f_equal.
  apply copy_entries_twice; [apply ignored_entries|apply ignored_excluded|done].
Qed.

(** X9. The two copies of the script give what one filtered copy gives. A
    project path that is a file raises NotADirectoryError, and an output
    directory that exists raises FileExistsError. *)
Theorem export_is_one_filtered_copy project_dir out_dir_exists :
  export project_dir out_dir_exists
  = match project_dir with
    | File _ => inl NotADirectoryError
    | Dir _ =>
        if out_dir_exists then inl FileExistsError
        else inr (copy_node ignored project_dir)
    end.
Proof.
  destruct project_dir as [content|entries]; [done|].
  destruct out_dir_exists; [done|].
  unfold export, copytree. cbn [copy_node].
  f_equal. apply (copy_node_twice (Dir entries)).
Qed.

Lemma copy_entries_names (ignored_names : gset string) entries :
  (∀ entry, entry ∈ entries → fst entry ∈ ignored_names ↔ excluded (fst entry) = true) →
  map fst
    (flat_map
       (λ entry,
          if decide (fst entry ∈ ignored_names) then []
          else [(fst entry, copy_node ignored (snd entry))])
       entries)
  = List.filter (λ name, negb (excluded name)) (map fst entries).
Proof.
  intros Hign. induction entries as [|[name child] entries IH]; [done|].
  assert (∀ entry, entry ∈ entries →
            fst entry ∈ ignored_names ↔ excluded (fst entry) = true) as Hrest
    by (intros entry Hin; apply Hign; by right).
  specialize (IH Hrest). cbn [flat_map map List.filter fst snd].
  pose proof (Hign (name, child) ltac:(left)) as Hname. simpl in Hname.
  destruct (decide (name ∈ ignored_names)) as [Hin|Hout].
  - apply Hname in Hin. by rewrite Hin.
  - destruct (excluded name); [by destruct Hout; apply Hname|]. simpl. by rewrite IH.
Qed.


Lemma filter_all_excluded (entries : list (string * node)) :
  (∀ entry, entry ∈ entries → excluded (fst entry) = true) →
  List.filter (λ name, negb (excluded name)) (map fst entries) = [].
Proof.
  induction entries as [|[name child] entries IH]; intros Hexcluded; [done|].
  cbn [map List.filter fst].
  pose proof (Hexcluded (name, child) ltac:(left)) as Hname. simpl in Hname.
  rewrite Hname. simpl. apply IH. intros entry Hin. apply Hexcluded. by right.
Qed.

(** X11. A directory is exported even when the filter empties it: if every
    entry of a kept directory is excluded, the output has it as an empty
    directory. *)
Theorem emptied_directory_is_exported entries path sub :
  lookup_path path (Dir entries) = Some (Dir sub) →
  kept path = true →
  (∀ entry, entry ∈ sub → excluded (fst entry) = true) →
  ∃ out, export (Dir entries) false = inr out
         ∧ lookup_path path out = Some (Dir []).
Proof.
  intros Hlookup Hkept Hexcluded.
  exists (copy_node ignored (copy_node ignored (Dir entries))). split; [done|].
  rewrite copy_node_twice, lookup_path_copy, Hkept, Hlookup. simpl. do 2 f_equal.
  apply (map_eq_nil fst). rewrite copy_entries_names by apply ignored_entries.
  by apply filter_all_excluded.
Qed.

(** ** Instances *)



Lemma nested_packages_not_reported_witness :
  let root :=
    sample_report
      [Element "group" {[ "name" := "module" ]}
         [sample_package "com/android/designcompose/x"
            [sample_class "File.kt" [sample_counter "LINE" "11" "9"]]]] in
  parse_jacoco_report 4300 (Document root) = ([], inr tt).
Proof.
  intros root. apply (nested_packages_not_reported 4300 root).
  intros child Hchild Htag. apply list_elem_of_singleton in Hchild. subst child.
  vm_compute in Htag. discriminate Htag.
Defined.

Lemma only_first_line_counter_read_witness :
  let line_counter := sample_counter "LINE" "11" "9" in
  let attrs : gmap string string := {[ "name" := "Sample"; "sourcefilename" := "File.kt" ]} in
  let attrs' : gmap string string := {[ "sourcefilename" := "File.kt" ]} in
  report_class 4300 "com/android/designcompose/x"
    (Element "class" attrs
       ([sample_counter "INSTRUCTION" "3" "40"]
        ++ line_counter :: [sample_counter "LINE" "0" "20"]))
  = report_class 4300 "com/android/designcompose/x"
      (Element "class" attrs' [line_counter]).
Proof.
  intros line_counter attrs attrs'.
  apply (only_first_line_counter_read 4300 "com/android/designcompose/x"
           "class" attrs "class" attrs' [sample_counter "INSTRUCTION" "3" "40"]
           line_counter [sample_counter "LINE" "0" "20"]).
  - intros c Hc [_ Htype]. apply list_elem_of_singleton in Hc. subst c.
    vm_compute in Htype. discriminate Htype.
  - reflexivity.
  - reflexivity.
  - reflexivity.
Defined.

Lemma uncovered_class_prints_zero_witness :
  let line_counter := sample_counter "LINE" "7" "0" in
  let class_elem := sample_class "File.kt" [line_counter] in
  (0 < 7)%Z
  ∧ report_class 4300 "com/android/designcompose/x" class_elem
    = (["com/android/designcompose/x" ++ "/" ++ py_str (get "sourcefilename" class_elem)
        ++ ": 0.00%"], inr tt).
Proof.
  intros line_counter class_elem. split; [lia|].
  apply (uncovered_class_prints_zero 4300 "com/android/designcompose/x" class_elem
           line_counter 7); [reflexivity|reflexivity|reflexivity|lia].
Defined.

Lemma class_error_keeps_earlier_lines_witness :
  let good := sample_class "A.kt" [sample_counter "LINE" "3" "1"] in
  let bad := sample_class "B.kt" [sample_counter "LINE" "many" "1"] in
  let last := sample_class "C.kt" [sample_counter "LINE" "8" "1"] in
  let package_name := "com/android/designcompose/x" in
  let package := sample_package package_name [good; bad; last] in
  raised (report_class 4300 package_name bad) = Some ValueError
  ∧ report_package 4300 package
    = ((stdout (for_each (report_class 4300 package_name) [good])
        ++ stdout (report_class 4300 package_name bad))%list,
       inl ValueError).
Proof.
  intros good bad last package_name package. split; [reflexivity|].
  apply (class_error_keeps_earlier_lines 4300 package package_name [good] bad [last]
           ValueError); reflexivity.
Defined.

(** A percentage just under 50 is printed, and reads [50.00]. *)
Example scenario_prints_50 :
  report_class 4300 "com/android/designcompose/x"
    (sample_class "File.kt" [sample_counter "LINE" "50001" "49999"])
  = (["com/android/designcompose/x/File.kt: 50.00%"], inr tt).
Proof. vm_compute. reflexivity. Qed.

Lemma printed_percentage_at_most_50_witness :
  let class_elem := sample_class "File.kt" [sample_counter "LINE" "50001" "49999"] in
  class_conforms 4300 class_elem = true
  ∧ ∃ h, (h ≤ 5000)%N
         ∧ "com/android/designcompose/x/File.kt: 50.00%"
           = "com/android/designcompose/x" ++ "/" ++ py_str (get "sourcefilename" class_elem)
             ++ ": " ++ fixed2 h ++ "%".
Proof.
  intros class_elem. split; [reflexivity|].
  apply (printed_percentage_at_most_50 4300 "com/android/designcompose/x" class_elem).
  - reflexivity.
  - vm_compute. left.
Defined.

Lemma int_reads_back_decimal_witness :
  (String.length (decimal 1234) ≤ 640
   ∨ 4300 = 0 ∨ String.length (decimal 1234) ≤ 4300)%nat
  ∧ py_int 4300 (Some (decimal 1234)) = inr (Z.of_N 1234).
Proof.
  assert (String.length (decimal 1234) ≤ 640
          ∨ 4300 = 0 ∨ String.length (decimal 1234) ≤ 4300)%nat as H.
  { left. vm_compute. lia. }
  split; [exact H|]. apply (int_reads_back_decimal 4300 1234 H).
Defined.

Lemma prefix_test_is_textual_witness :
  let package_name := "com/android/designcomposeextra" in
  let package :=
    sample_package package_name [sample_class "File.kt" [sample_counter "LINE" "11" "9"]] in
  ((∃ suffix, package_name = prefix_name ++ suffix) →
   report_package 4300 package
   = for_each (report_class 4300 package_name) (findall "class" package))
  ∧ (¬ (∃ suffix, package_name = prefix_name ++ suffix) →
     report_package 4300 package = ([], inr tt)).
Proof.
  intros package_name package.
  apply (prefix_test_is_textual 4300 package package_name). reflexivity.
Defined.

Lemma emptied_directory_is_exported_witness :
  let entries :=
    [("docs", Dir [(".gitkeep", File "")]); ("src", Dir [("Main.kt", File "fun main() {}")])] in
  lookup_path ["docs"] (Dir entries) = Some (Dir [(".gitkeep", File "")])
  ∧ kept ["docs"] = true
  ∧ ∃ out, export (Dir entries) false = inr out
           ∧ lookup_path ["docs"] out = Some (Dir []).
Proof.
  intros entries. split; [reflexivity|]. split; [reflexivity|].
  apply (emptied_directory_is_exported entries ["docs"] [(".gitkeep", File "")]).
  - reflexivity.
  - reflexivity.
  - intros entry Hentry. apply list_elem_of_singleton in Hentry. subst entry. reflexivity.
Defined.
